(** * worldquant-agent: the control core, embedded and verified

    A shallow embedding of [src/mcp_client.py], [src/storage.py],
    [src/graph.py] and [src/run.py].

    - Python values that cross the platform boundary are a small JSON-like
      universe [PyVal].
    - The platform module [worldquant_platform_functions] is a finite map
      from attribute names to attributes; a callable attribute is a [Tool].
    - Every function of [MCPClient] runs in a state-and-exception monad
      whose state is the trace of observable effects (platform calls,
      sleeps, log records, retry attempts), newest event first.
    - Only subclasses of Python's [Exception] are modelled as failures;
      [KeyboardInterrupt] and the other [BaseException]-only signals are
      outside the model. *)

From Equations Require Import Equations.
From Stdlib Require Import ZArith QArith.
From stdpp Require Import gmap strings list sorting.

Close Scope Q_scope.
Set Warnings "-register-all".

(** ** Python values *)

Inductive PyVal : Type :=
| PNone
| PBool (b : bool)
| PInt (z : Z)
| PFloat (q : Q)
| PStr (s : string)
| PList (items : list PyVal)
| PDict (fields : list (string * PyVal)).

(** Keyword arguments and [dict] bodies keep insertion order. *)
Definition Kwargs : Type := list (string * PyVal).

(** [key in d] *)
Fixpoint dict_has (key : string) (d : list (string * PyVal)) : bool :=
  match d with
  | [] => false
  | (k, _) :: rest => if String.eqb k key then true else dict_has key rest
  end.

(** [d.get(key, default)] *)
Fixpoint dict_get (key : string) (default : PyVal)
    (d : list (string * PyVal)) : PyVal :=
  match d with
  | [] => default
  | (k, v) :: rest => if String.eqb k key then v else dict_get key default rest
  end.

(** [isinstance(v, dict)] *)
Definition is_dict (v : PyVal) : bool :=
  match v with PDict _ => true | _ => false end.

(** [key in v] for a [dict] [v]; the callers test [is_dict] first. *)
Definition py_in (key : string) (v : PyVal) : bool :=
  match v with PDict fields => dict_has key fields | _ => false end.

(** [bool(v)]: Python truthiness. *)
Definition truthy (v : PyVal) : bool :=
  match v with
  | PNone => false
  | PBool b => b
  | PInt z => negb (z =? 0)%Z
  | PFloat q => negb (Qeq_bool q 0)
  | PStr s => negb (String.eqb s "")
  | PList items => match items with [] => false | _ => true end
  | PDict fields => match fields with [] => false | _ => true end
  end.

(** ** Failures, events, and the effect monad *)

Record Exn : Type := mkExn { exn_class : string; exn_msg : string }.

Definition AttributeError (msg : string) : Exn := mkExn "AttributeError" msg.
Definition RuntimeError (msg : string) : Exn := mkExn "RuntimeError" msg.
Definition TypeError (msg : string) : Exn := mkExn "TypeError" msg.
Definition OverflowError (msg : string) : Exn := mkExn "OverflowError" msg.

Inductive Level : Type := DEBUG | INFO | WARNING | ERROR.

Inductive Event : Type :=
| EAttempt (attempt_number : nat)         (* the retry wrapper starts an attempt *)
| ESleep (seconds : Z)                    (* the retry wrapper sleeps *)
| ECall (name : string) (kwargs : Kwargs) (* a platform function is executed *)
| ELog (level : Level) (template : string).

(** Newest event first. *)
Definition Trace : Type := list Event.

Inductive Outcome (A : Type) : Type :=
| Ok (value : A)
| Raise (e : Exn).
Arguments Ok {A} value.
Arguments Raise {A} e.

Definition M (A : Type) : Type := Trace -> Outcome A * Trace.

Definition ret {A} (a : A) : M A := fun w => (Ok a, w).
Definition raise {A} (e : Exn) : M A := fun w => (Raise e, w).
Definition bind {A B} (m : M A) (k : A -> M B) : M B :=
  fun w => match m w with
           | (Ok a, w') => k a w'
           | (Raise e, w') => (Raise e, w')
           end.
(** [try: m  except Exception as e: h e] *)
Definition try_except {A} (m : M A) (h : Exn -> M A) : M A :=
  fun w => match m w with
           | (Ok a, w') => (Ok a, w')
           | (Raise e, w') => h e w'
           end.
Definition emit (ev : Event) : M unit := fun w => (Ok tt, ev :: w).
Definition logger (lvl : Level) (template : string) : M unit :=
  emit (ELog lvl template).

Declare Scope py_scope.
Delimit Scope py_scope with py.
Notation "x <- m ;; k" := (bind m (fun x => k))
  (at level 100, m at next level, right associativity) : py_scope.
Notation "m ;;; k" := (bind m (fun _ => k))
  (at level 100, right associativity) : py_scope.
Open Scope py_scope.

(** Projections of a trace, oldest first. *)
Definition project {X} (pick : Event -> option X) (w : Trace) : list X :=
  rev (omap pick w).
Definition calls_of : Trace -> list (string * Kwargs) :=
  project (fun ev => match ev with ECall n kw => Some (n, kw) | _ => None end).
Definition sleeps_of : Trace -> list Z :=
  project (fun ev => match ev with ESleep s => Some s | _ => None end).
Definition attempts_of : Trace -> list nat :=
  project (fun ev => match ev with EAttempt n => Some n | _ => None end).
Definition logs_of : Trace -> list (Level * string) :=
  project (fun ev => match ev with ELog l t => Some (l, t) | _ => None end).

(** ** The platform module *)

(** A platform function.  Its outcome may depend on its keyword arguments
    and on every platform call executed before it (oldest first), which is
    how "fails twice, then succeeds" is expressed. *)
Record Tool : Type := mkTool {
  accepts_timeout : bool;   (* "timeout" in inspect.signature(func).parameters *)
  behave : Kwargs -> list (string * Kwargs) -> Outcome PyVal
}.

Inductive Attr : Type :=
| Callable (t : Tool)
| Plain (v : PyVal).

Record MCPClient : Type := mkClient {
  default_timeout : Z;
  query_tool : string
}.

(** [MCPClient()] *)
Definition MCPClient_default : MCPClient :=
  mkClient 30 "get_submission_check".

Definition RETRY_ATTEMPTS : nat := 5.
Definition RETRY_WAIT_MULTIPLIER : Z := 1.
Definition RETRY_WAIT_MAX : Z := 30.

(** ** The retry wrapper

    [tenacity.retry(wait=wait_exponential(multiplier, min=1, max),
                    stop=stop_after_attempt(n),
                    retry=retry_if_exception_type(Exception), reraise=True)]:
    the library's loop, with the policy objects the three decorated methods
    share. *)

(** [wait_exponential.__call__]:
    [max(max(0, min), min(multiplier * 2 ** (attempt_number - 1), max))]. *)
Definition wait_exponential (multiplier wmin wmax : Z) (attempt_number : nat) : Z :=
  Z.max (Z.max 0 wmin)
        (Z.min (multiplier * 2 ^ (Z.of_nat attempt_number - 1)) wmax).

(** [stop_after_attempt.__call__]: [attempt_number >= max_attempt_number]. *)
Definition stop_after_attempt (max_attempt_number attempt_number : nat) : bool :=
  max_attempt_number <=? attempt_number.

Definition retry_wait : nat -> Z :=
  wait_exponential RETRY_WAIT_MULTIPLIER 1 RETRY_WAIT_MAX.
Definition retry_stop : nat -> bool := stop_after_attempt RETRY_ATTEMPTS.

Definition inspect {A} (a : A) : {b | a = b} := exist _ a eq_refl.

(** The [while True] loop of [Retrying.__call__], entered with
    [attempt_number]; every raised [Exception] is retried. *)
Equations? retry_loop {A} (fn : M A) (attempt_number : nat) (w : Trace)
    : Outcome A * Trace by wf (RETRY_ATTEMPTS - attempt_number) lt :=
  retry_loop fn attempt_number w with fn (EAttempt attempt_number :: w) => {
    | (Ok v, w') => (Ok v, w');
    | (Raise e, w') with inspect (retry_stop attempt_number) => {
        | exist _ true _ => (Raise e, w');          (* reraise=True *)
        | exist _ false Hgo =>
            retry_loop fn (S attempt_number)
                       (ESleep (retry_wait attempt_number) :: w') } }.
Proof.
  unfold retry_stop, stop_after_attempt in Hgo.
  apply Nat.leb_gt in Hgo. lia.
Qed.

(** The decorator: attempts are numbered from 1. *)
Definition retry {A} (fn : M A) : M A := retry_loop fn 1.

Section Gateway.

(** The attributes of [worldquant_platform_functions]. *)
Variable wq_funcs : gmap string Attr.
Variable self : MCPClient.

(** [_has_tool]: [hasattr] and [callable]. *)
Definition _has_tool (name : string) : bool :=
  match wq_funcs !! name with
  | Some (Callable _) => true
  | _ => false
  end.

(** The timeout injection of [_call_tool]:
    [if "timeout" in sig.parameters and "timeout" not in kwargs]. *)
Definition with_default_timeout (func : Tool) (kwargs : Kwargs) : Kwargs :=
  if accepts_timeout func && negb (dict_has "timeout" kwargs)
  then kwargs ++ [("timeout", PInt (default_timeout self))]
  else kwargs.

(** [_call_tool]; the [finally] clause logs whether or not [func] raised. *)
Definition _call_tool (name : string) (kwargs : Kwargs) : M PyVal :=
  match wq_funcs !! name with
  | Some (Callable func) =>
      let kwargs := with_default_timeout func kwargs in
      fun w =>
        let resp := behave func kwargs (calls_of w) in
        (resp, ELog DEBUG "Tool call {} completed in {:.2f}s"
                 :: ECall name kwargs :: w)
  | _ =>
      raise (AttributeError
               ("Platform tool '" +:+ name
                  +:+ "' not found in worldquant_platform_functions"))
  end.


(** A call [self._call_tool(fn, **keywords)] written with explicit
    keywords, bound against [def _call_tool(self, name, **kwargs)]: a
    keyword called [name] collides with the parameter that [fn] already
    fills, and the call raises [TypeError] before the body of [_call_tool]
    runs (message as of Python 3.10). *)
Definition _call_tool_keywords (fn : string) (keywords : Kwargs) : M PyVal :=
  if dict_has "name" keywords then
    raise (TypeError
             "MCPClient._call_tool() got multiple values for argument 'name'")
  else _call_tool fn keywords.

(** The body of [run_tool], and [run_tool] as decorated. *)
Definition run_tool_body (name : string) (kwargs : Kwargs) : M PyVal :=
  logger INFO "Running tool: {} with args keys: {}" ;;;
  _call_tool name kwargs.

Definition run_tool (name : string) (kwargs : Kwargs) : M PyVal :=
  retry (run_tool_body name kwargs).

(** The body of [wq_create_simulation], and the method as decorated.
    [meta] is [Optional[Dict]]; [meta or {}] sends [None] to the empty
    dict. *)
Definition wq_create_simulation_body (settings : Kwargs) (regular : string)
    (meta : option Kwargs) : M PyVal :=
    let meta := default [] meta in
    if negb (_has_tool "create_simulation") then
      raise (AttributeError "Platform does not implement 'create_simulation'")
    else
      logger DEBUG "wq_create_simulation meta keys: {}" ;;;
      resp <- _call_tool "create_simulation"
                [("settings", PDict settings); ("regular", PStr regular);
                 ("meta", PDict meta)] ;;
      if negb (is_dict resp) || negb (py_in "location" resp) then
        logger WARNING "create_simulation returned unexpected response: {}" ;;;
        raise (RuntimeError "create_simulation must return dict containing 'location'")
      else ret resp.

Definition wq_create_simulation (settings : Kwargs) (regular : string)
    (meta : option Kwargs) : M PyVal :=
  retry (wq_create_simulation_body settings regular meta).

(** The body of [wq_get_result], and the method as decorated. *)
Definition wq_get_result_body (location : string) : M PyVal :=
    if negb (_has_tool (query_tool self)) then
      raise (AttributeError
               ("Platform does not implement query tool '"
                  +:+ query_tool self +:+ "'"))
    else
      logger DEBUG "wq_get_result using tool '{}' for location {}" ;;;
      resp <- _call_tool (query_tool self) [("location", PStr location)] ;;
      if negb (is_dict resp) then
        logger WARNING "Query tool {} returned non-dict: {}" ;;;
        raise (RuntimeError
                 ("Query tool " +:+ query_tool self
                    +:+ " returned invalid response"))
      else ret resp.

Definition wq_get_result (location : string) : M PyVal :=
  retry (wq_get_result_body location).

(** [bool(resp.get("ok", True))] for a dict, [otherwise resp] for the rest. *)
Definition ok_flag (otherwise : PyVal -> bool) (resp : PyVal) : bool :=
  match resp with
  | PDict fields => truthy (dict_get "ok" (PBool true) fields)
  | _ => otherwise resp
  end.

(** The [for fn in (...)] loop of [rate_limit_acquire]; the call is
    [self._call_tool(fn, name=name, permits=permits)]. *)
Fixpoint rate_limit_acquire_from (fns : list string) (name : string)
    (permits : Z) : M bool :=
  match fns with
  | fn :: rest =>
      if _has_tool fn then
        try_except
          (resp <- _call_tool_keywords fn
                     [("name", PStr name); ("permits", PInt permits)] ;;
           ret (ok_flag truthy resp))
          (fun e =>
             logger WARNING "rate_limit_acquire('{}') raised {}" ;;;
             ret false)
      else rate_limit_acquire_from rest name permits
  | [] =>
      logger WARNING "No rate limit acquire tool found; defaulting to True" ;;;
      ret true
  end.

Definition rate_limit_acquire (name : string) (permits : Z) : M bool :=
  rate_limit_acquire_from ["acquire_rate_limit"; "acquire_rate_limit"]
                          name permits.

(** The [for fn in (...)] loop of [rate_limit_release]; the call is
    [self._call_tool(fn, name=name, permits=permits)]. *)
Fixpoint rate_limit_release_from (fns : list string) (name : string)
    (permits : Z) : M unit :=
  match fns with
  | fn :: rest =>
      if _has_tool fn then
        try_except
          (_call_tool_keywords fn
             [("name", PStr name); ("permits", PInt permits)] ;;;
           ret tt)
          (fun e =>
             logger WARNING "rate_limit_release('{}') raised {}" ;;;
             ret tt)
      else rate_limit_release_from rest name permits
  | [] => logger DEBUG "No rate limit release tool found; skipping"
  end.

Definition rate_limit_release (name : string) (permits : Z) : M unit :=
  rate_limit_release_from ["release_rate_limit"; "release_rate_limit"]
                          name permits.

(** One guarded store call: the body shared by the primary branch and the
    alternates of [store_put]. *)
Definition store_put_via (tool : string) (failure_log : Level * string)
    (key : string) (value : Kwargs) : M bool :=
  try_except
    (resp <- _call_tool tool [("key", PStr key); ("value", PDict value)] ;;
     ret (ok_flag (fun _ => true) resp))
    (fun e => logger failure_log.1 failure_log.2 ;;; ret false).

(** The [for alt in (...)] loop of [store_put]. *)
Fixpoint store_put_alternates (alts : list string) (key : string)
    (value : Kwargs) : M bool :=
  match alts with
  | alt :: rest =>
      if _has_tool alt then
        store_put_via alt (ERROR, "Alternative store '{}' failed: {}") key value
      else store_put_alternates rest key value
  | [] =>
      logger WARNING "No storage tool found; store_put is a no-op" ;;;
      ret false
  end.

Definition store_put (key : string) (value : Kwargs) : M bool :=
  if _has_tool "store_put" then
    store_put_via "store_put" (ERROR, "store_put failed for {}: {}") key value
  else
    store_put_alternates ["save_simulation_data"; "manage_config"] key value.

(** One guarded lookup; [None] is [PNone]. *)
Definition store_get_via (tool : string) (failure_log : Level * string)
    (key : string) : M PyVal :=
  try_except
    (_call_tool tool [("key", PStr key)])
    (fun e => logger failure_log.1 failure_log.2 ;;; ret PNone).

(** The [for alt in (...)] loop of [store_get]. *)
Fixpoint store_get_alternates (alts : list string) (key : string) : M PyVal :=
  match alts with
  | alt :: rest =>
      if _has_tool alt then
        store_get_via alt (WARNING, "Alternative store_get '{}' failed: {}") key
      else store_get_alternates rest key
  | [] => logger WARNING "No store_get tool found" ;;; ret PNone
  end.

Definition store_get (key : string) : M PyVal :=
  if _has_tool "store_get" then
    store_get_via "store_get" (ERROR, "store_get failed for {}: {}") key
  else
    store_get_alternates ["get_platform_setting_options"; "get_user_profile"] key.

(** [call_platform] *)
Definition call_platform (tool_name : string) (kwargs : Kwargs) : M PyVal :=
  run_tool tool_name kwargs.

End Gateway.

(** ** The persistent store ([storage.py])

    The two tables are lists of rows in rowid (insertion) order.  A
    [state_json] or [settings_json] cell is represented by the document it
    holds: on [PyVal], [json.loads (json.dumps v)] is [v].  [io_fault]
    stands for the condition of the connection: when it is [Some e], the
    next statement raises the [sqlite3] error [e] and changes nothing.
    A [REAL] score is a rational. *)

Record SnapshotRow : Type := mkSnapshot {
  snap_ts : Z; snap_round_idx : Z; snap_state_json : PyVal
}.

Record LeaderboardRow : Type := mkLeader {
  lb_ts : Z; lb_expr : string; lb_settings_json : PyVal;
  lb_score : Q; lb_comment : string
}.

Record DB : Type := mkDB {
  snapshots : list SnapshotRow;
  leaderboard : list LeaderboardRow;
  io_fault : option Exn
}.

(** [SQLiteStore(path)] on a fresh file, after [_init]. *)
Definition empty_db : DB := mkDB [] [] None.

Definition Sql (A : Type) : Type := DB -> Outcome A * DB.

(** [cur.execute(...)]: run a statement, or raise the pending fault. *)
Definition execute {A} (stmt : DB -> A * DB) : Sql A :=
  fun db => match io_fault db with
            | Some e => (Raise e, db)
            | None => let (a, db') := stmt db in (Ok a, db')
            end.

(** An integer SQLite can store: the signed 64-bit range. *)
Definition sqlite_integer (z : Z) : bool :=
  (-9223372036854775808 <=? z)%Z && (z <=? 9223372036854775807)%Z.

(** [cur.execute(sql, params)] with a caller-supplied [int] among the
    parameters: binding an integer outside the signed 64-bit range raises
    [OverflowError] and the statement does not run.  (The timestamp
    [int(time.time())] is always inside the range.) *)
Definition execute_binding {A} (param : Z) (stmt : DB -> A * DB) : Sql A :=
  fun db => match io_fault db with
            | Some e => (Raise e, db)
            | None =>
                if sqlite_integer param then
                  let (a, db') := stmt db in (Ok a, db')
                else
                  (Raise (OverflowError
                            "Python int too large to convert to SQLite INTEGER"),
                   db)
            end.

Section OrderBy.

Context {R : Type}.
(** [lt a b]: the sort key of [a] is strictly below the sort key of [b]. *)
Variable lt : R -> R -> bool.

(** Place [x], which was stored before every row of [sorted], in front of
    the first row whose key is not above its own. *)
Fixpoint insert_desc (x : R) (sorted : list R) : list R :=
  match sorted with
  | [] => [x]
  | y :: ys => if lt x y then y :: insert_desc x ys else x :: sorted
  end.

(** [ORDER BY key DESC] of a query that also has a [LIMIT]: descending,
    rows with equal keys in rowid order (SQLite sorts such a query through
    an index on the key followed by the scan sequence number). *)
Definition order_by_desc (rows : list R) : list R :=
  foldr insert_desc [] rows.

(** [LIMIT k]; a negative [k] means no limit. *)
Definition limit (k : Z) (rows : list R) : list R :=
  if (k <? 0)%Z then rows else take (Z.to_nat k) rows.

End OrderBy.


Definition ts_lt (a b : SnapshotRow) : bool := (snap_ts a <? snap_ts b)%Z.
Definition score_lt (a b : LeaderboardRow) : bool :=
  negb (Qle_bool (lb_score b) (lb_score a)).

(** [save_snapshot]; [now] is [int(time.time())]. *)
Definition save_snapshot (now : Z) (round_idx : Z) (state : PyVal) : Sql unit :=
  execute_binding round_idx (fun db =>
    (tt, mkDB (snapshots db ++ [mkSnapshot now round_idx state])
              (leaderboard db) (io_fault db))).

(** [load_latest_snapshot] *)
Definition load_latest_snapshot : Sql PyVal :=
  fun db =>
    match execute (fun db =>
            (limit 1 (order_by_desc ts_lt (snapshots db)), db)) db with
    | (Ok (row :: _), db') => (Ok (snap_state_json row), db')
    | (Ok [], db') => (Ok (PDict []), db')
    | (Raise e, db') => (Raise e, db')
    end.

(** [add_leaderboard] *)
Definition add_leaderboard (now : Z) (expr : string) (settings : PyVal)
    (score : Q) (comment : string) : Sql unit :=
  execute (fun db =>
    (tt, mkDB (snapshots db)
              (leaderboard db ++ [mkLeader now expr settings score comment])
              (io_fault db))).

(** The dict [top_k] builds from a selected row
    [(expr, settings_json, score, ts)]. *)
Definition top_k_entry (r : LeaderboardRow) : PyVal :=
  PDict [("expr", PStr (lb_expr r)); ("settings", lb_settings_json r);
         ("score", PFloat (lb_score r)); ("ts", PInt (lb_ts r))].

(** [top_k] *)
Definition top_k (k : Z) : Sql (list PyVal) :=
  fun db =>
    match execute_binding k (fun db =>
            (limit k (order_by_desc score_lt (leaderboard db)), db)) db with
    | (Ok rows, db') => (Ok (top_k_entry <$> rows), db')
    | (Raise e, db') => (Raise e, db')
    end.

(** ** The round state ([models.py], not in the source tree) *)

(** Modelled from the spec: [Candidate] of [models.py] is missing; the
    fields are those of the data model, section 3. *)
Record Candidate : Type := mkCandidate {
  expr : string;
  settings : Kwargs;
  rationale : string;
  score : option Q;
  comment : option string
}.

(** Modelled from the spec: [GraphState] of [models.py] is missing; the fields
    and their initial values are those of [RoundState], section 3
    ([round_idx] starts at 0, [feedback] is empty on round 0, the optional
    fields are absent, [history] is empty, [stop] is false). *)
Record GraphState : Type := mkGraphState {
  goal : string;
  round_idx : Z;
  max_rounds : Z;
  feedback : string;
  current_candidate : option Candidate;
  current_result : option PyVal;
  current_score : option Q;
  current_comment : option string;
  best : option Candidate;
  history : list Candidate;
  stop : bool
}.

(** [GraphState(goal=..., max_rounds=...)] *)
Definition GraphState_new (goal : string) (max_rounds : Z) : GraphState :=
  mkGraphState goal 0 max_rounds "" None None None None None [] false.

Definition py_option {X} (f : X -> PyVal) (o : option X) : PyVal :=
  match o with Some x => f x | None => PNone end.

Definition Candidate_dict (c : Candidate) : PyVal :=
  PDict [("expr", PStr (expr c)); ("settings", PDict (settings c));
         ("rationale", PStr (rationale c));
         ("score", py_option PFloat (score c));
         ("comment", py_option PStr (comment c))].

(** [state.dict()] *)
Definition GraphState_dict (s : GraphState) : PyVal :=
  PDict [("goal", PStr (goal s)); ("round_idx", PInt (round_idx s));
         ("max_rounds", PInt (max_rounds s)); ("feedback", PStr (feedback s));
         ("current_candidate", py_option Candidate_dict (current_candidate s));
         ("current_result", py_option id (current_result s));
         ("current_score", py_option PFloat (current_score s));
         ("current_comment", py_option PStr (current_comment s));
         ("best", py_option Candidate_dict (best s));
         ("history", PList (Candidate_dict <$> history s));
         ("stop", PBool (stop s))].

(** ** The process: everything [run.main] can touch *)

Record Process : Type := mkProcess {
  effects : Trace;        (* what the [MCPClient] did *)
  store : DB;             (* wq_graph.db *)
  clock : Z;              (* time.time(), whole seconds *)
  stderr : list string;
  stdout : list PyVal
}.

Definition P (A : Type) : Type := Process -> Outcome A * Process.

Definition retP {A} (a : A) : P A := fun p => (Ok a, p).
Definition raiseP {A} (e : Exn) : P A := fun p => (Raise e, p).
Definition bindP {A B} (m : P A) (k : A -> P B) : P B :=
  fun p => match m p with
           | (Ok a, p') => k a p'
           | (Raise e, p') => (Raise e, p')
           end.
Definition try_exceptP {A} (m : P A) (h : Exn -> P A) : P A :=
  fun p => match m p with
           | (Ok a, p') => (Ok a, p')
           | (Raise e, p') => h e p'
           end.

(** Run an [MCPClient] method inside the process. *)
Definition via_client {A} (m : M A) : P A :=
  fun p => let (r, w) := m (effects p) in
           (r, mkProcess w (store p) (clock p) (stderr p) (stdout p)).

(** Run a store method inside the process; it reads the clock itself. *)
Definition via_store {A} (q : Z -> Sql A) : P A :=
  fun p => let (r, db) := q (clock p) (store p) in
           (r, mkProcess (effects p) db (clock p) (stderr p) (stdout p)).

Definition eprint (line : string) : P unit :=
  fun p => (Ok tt, mkProcess (effects p) (store p) (clock p)
                             (stderr p ++ [line]) (stdout p)).
Definition print (v : PyVal) : P unit :=
  fun p => (Ok tt, mkProcess (effects p) (store p) (clock p)
                             (stderr p) (stdout p ++ [v])).

(** ** The round state machine ([graph.py]) *)

Inductive Node : Type :=
  planner | author | risk | submit | poll | analyze | decide.

Inductive Target : Type :=
| Goto (n : Node)
| END.

(** The node functions live in [nodes_author_risk.py],
    [nodes_submit_poll.py] and [nodes_analyze_decide.py], none of which is
    in the source tree: they are parameters of the graph. *)
Record Nodes : Type := mkNodes {
  planner_node : GraphState -> P GraphState;
  author_node : GraphState -> P GraphState;
  risk_node : GraphState -> P GraphState;
  submit_node : GraphState -> P GraphState;
  poll_node : GraphState -> P GraphState;
  analyze_node : GraphState -> P GraphState;
  decide_node : GraphState -> P GraphState
}.

(** [graph.add_node] *)
Definition node_fn (nodes : Nodes) (n : Node) : GraphState -> P GraphState :=
  match n with
  | planner => planner_node nodes
  | author => author_node nodes
  | risk => risk_node nodes
  | submit => submit_node nodes
  | poll => poll_node nodes
  | analyze => analyze_node nodes
  | decide => decide_node nodes
  end.

(** [graph.add_edge] and [graph.add_conditional_edges]: where control goes
    once node [n] has produced state [s]. *)
Definition edge (n : Node) (s : GraphState) : Target :=
  match n with
  | planner => Goto author
  | author => Goto risk
  | risk => Goto submit
  | submit => Goto poll
  | poll => Goto analyze
  | analyze => Goto decide
  | decide => if stop s then END else Goto author
  end.

(** How a run of the compiled graph ends. *)
Inductive Run : Type :=
| Finished (final : GraphState)
| Crashed (at_node : Node) (before : GraphState) (e : Exn)
| OutOfSteps.

(** The executor's loop: at most [steps] node executions, starting with
    node [n] on state [s].  [Crashed] records, for the proofs only, the
    node that raised and the state it was given. *)
Fixpoint run_from (nodes : Nodes) (steps : nat) (n : Node) (s : GraphState)
    (p : Process) : Run * Process :=
  match steps with
  | O => (OutOfSteps, p)
  | S steps' =>
      match node_fn nodes n s p with
      | (Raise e, p') => (Crashed n s e, p')
      | (Ok s', p') =>
          match edge n s' with
          | END => (Finished s', p')
          | Goto n' => run_from nodes steps' n' s' p'
          end
      end
  end.

Definition GraphRecursionError : Exn :=
  mkExn "GraphRecursionError" "Recursion limit reached without hitting a stop condition".

(** Where an edge starts: at the graph's [START] marker or at a node. *)
Inductive Source : Type :=
| START
| From (n : Node).

(** The [StateGraph] under construction: the nodes added, the fixed edges
    and the conditional edges recorded so far. *)
Record StateGraph : Type := mkStateGraph {
  sg_nodes : list Node;
  sg_edges : list (Source * Target);
  sg_branches : list (Node * (GraphState -> Target))
}.

Definition add_node (n : Node) (g : StateGraph) : StateGraph :=
  mkStateGraph (sg_nodes g ++ [n]) (sg_edges g) (sg_branches g).
Definition add_edge (src : Source) (dst : Target) (g : StateGraph) : StateGraph :=
  mkStateGraph (sg_nodes g) (sg_edges g ++ [(src, dst)]) (sg_branches g).
Definition add_conditional_edges (src : Node) (path : GraphState -> Target)
    (g : StateGraph) : StateGraph :=
  mkStateGraph (sg_nodes g) (sg_edges g) (sg_branches g ++ [(src, path)]).

(** The graph [build_graph] has assembled when it reaches
    [graph.compile]: seven [add_node] calls, six [add_edge] calls and one
    [add_conditional_edges] call, in the order of the source.  There is no
    [set_entry_point] call and no edge from [START]. *)
Definition declared_graph : StateGraph :=
  add_conditional_edges decide (fun s => if stop s then END else Goto author)
    (add_edge (From analyze) (Goto decide)
    (add_edge (From poll) (Goto analyze)
    (add_edge (From submit) (Goto poll)
    (add_edge (From risk) (Goto submit)
    (add_edge (From author) (Goto risk)
    (add_edge (From planner) (Goto author)
    (add_node decide
    (add_node analyze
    (add_node poll
    (add_node submit
    (add_node risk
    (add_node author
    (add_node planner
    (mkStateGraph [] [] [])))))))))))))).

(** A compiled graph: the node functions and the target of the edge from
    [START]. *)
Record CompiledGraph : Type := mkCompiled {
  cg_nodes : Nodes;
  cg_entry : Target
}.







(** [app.invoke(init)] on a compiled graph: the run starts at the target
    of the edge from [START]; an exception raised by a node propagates as
    it is. *)
Definition invoke (app : CompiledGraph) (recursion_limit : nat)
    (init : GraphState) : P GraphState :=
  fun p =>
    match cg_entry app with
    | END => (Ok init, p)
    | Goto entry =>
        match run_from (cg_nodes app) recursion_limit entry init p with
        | (Finished final, p') => (Ok final, p')
        | (Crashed _ _ e, p') => (Raise e, p')
        | (OutOfSteps, p') => (Raise GraphRecursionError, p')
        end
    end.

(** ** The orchestrator ([run.py]) *)

Definition main_goal : string :=
  "Find robust alphas with low turnover and high stability.".

(** [main] from [init = GraphState(...)] on, given what [app.invoke]
    does.  [init] is a value: the executor gives every node a state of its
    own, so in the handler [init] still is the state built before the
    run. *)
Definition main_with_app (app_invoke : GraphState -> P GraphState) : P unit :=
  let init := GraphState_new main_goal 5 in
  bindP
    (try_exceptP (app_invoke init)
       (fun e =>
          bindP (eprint "Graph invocation raised exception:") (fun _ =>
          bindP (eprint ("Traceback: " +:+ exn_class e +:+ ": " +:+ exn_msg e)) (fun _ =>
          bindP
            (try_exceptP
               (bindP (via_store (fun now =>
                         save_snapshot now (round_idx init) (GraphState_dict init)))
                      (fun _ => eprint "Saved snapshot of initial state for recovery."))
               (fun se => eprint ("Failed to save snapshot: " +:+ exn_msg se)))
            (fun _ => raiseP e)))))
    (fun final =>
       bindP (print (PStr "Best candidate:")) (fun _ =>
       match best final with
       | Some b =>
           print (PDict [("expr", PStr (expr b));
                         ("score", py_option PFloat (score b));
                         ("settings", PDict (settings b));
                         ("rationale", PStr (rationale b))])
       | None =>
           bindP (print (PStr "No best candidate found.")) (fun _ =>
           print (PList [PStr "History length:";
                         PInt (Z.of_nat (length (history final)))]))
       end)).


(** ** The placeholder oracle ([DummyLLM] of [graph.py]) *)

(** [needle in hay] on [str]; strings are sequences of UTF-8 bytes, on
    which containment agrees with containment on code points. *)
Fixpoint contains (needle hay : string) : bool :=
  String.prefix needle hay ||
  match hay with
  | EmptyString => false
  | String _ rest => contains needle rest
  end.

(** The line feed and the double quote of the reply literals. *)
Definition LF : string := String (Ascii.ascii_of_nat 10) EmptyString.
Definition DQ : string := String (Ascii.ascii_of_nat 34) EmptyString.

Definition author_reply : string :=
  "EXPR: ts_rank(winsorize(ts_delay(close, 1), std=4), 10)" +:+ LF +:+
  "RATIONALE: Control turnover with delay and longer rank window.".

Definition risk_reply : string :=
  "{" +:+ DQ +:+ "neutralization" +:+ DQ +:+ ":" +:+ DQ +:+ "SECTOR" +:+ DQ +:+
  "," +:+ DQ +:+ "delay" +:+ DQ +:+ ":1," +:+ DQ +:+ "decay" +:+ DQ +:+ ":1," +:+
  DQ +:+ "truncation" +:+ DQ +:+ ":0.08," +:+ DQ +:+ "region" +:+ DQ +:+ ":" +:+
  DQ +:+ "USA" +:+ DQ +:+ "," +:+ DQ +:+ "universe" +:+ DQ +:+ ":" +:+
  DQ +:+ "TOP3000" +:+ DQ +:+ "}" +:+ LF +:+
  "rationale: reduce turnover via decay".

Definition analyst_reply : string :=
  "SCORE: 1.2" +:+ LF +:+ "COMMENT: Solid IR with moderate turnover." +:+ LF +:+
  "CONTINUE: Y".

(** [DummyLLM.generate] *)
Definition generate (prompt : string) : string :=
  if contains "EXPR:" prompt then author_reply
  else if contains "return updated settings" prompt
          || contains "输出：给出修改后的 settings" prompt then risk_reply
  else if contains "SCORE:" prompt then analyst_reply
  else "".

(** * Specification vocabulary

    Notions the statements below are written in, the readings of the
    claims that are refuted, and the concrete platforms, databases and
    node functions the statements are evaluated on. *)

(** ** Retried calls *)

(** A method body, as the retry loop sees it: [attempt h] is what one run of
    the body raises or returns when [h] is the list of platform calls made
    so far, and every run appends the calls [cs] and leaves sleeping and
    attempt counting to the loop. *)
Definition body_profile {A} (fn : M A)
    (attempt : list (string * Kwargs) -> Outcome A)
    (cs : list (string * Kwargs)) : Prop :=
  forall w, exists w',
    fn w = (attempt (calls_of w), w') /\
    calls_of w' = calls_of w ++ cs /\
    sleeps_of w' = sleeps_of w /\
    attempts_of w' = attempts_of w.

(** The platform calls on record before attempt [i + 1]. *)
Definition calls_before (cs : list (string * Kwargs)) (w : Trace) (i : nat)
    : list (string * Kwargs) :=
  calls_of w ++ mjoin (replicate i cs).

Inductive WrappedCall : Type :=
| CallRunTool (name : string) (kwargs : Kwargs)
| CallCreateSimulation (settings : Kwargs) (regular : string) (meta : option Kwargs)
| CallGetResult (location : string).

Definition wrapped_call (wq_funcs : gmap string Attr) (self : MCPClient)
    (c : WrappedCall) : M PyVal :=
  match c with
  | CallRunTool name kwargs => run_tool wq_funcs self name kwargs
  | CallCreateSimulation st regular meta =>
      wq_create_simulation wq_funcs self st regular meta
  | CallGetResult location => wq_get_result wq_funcs self location
  end.

Definition wrapped_body (wq_funcs : gmap string Attr) (self : MCPClient)
    (c : WrappedCall) : M PyVal :=
  match c with
  | CallRunTool name kwargs => run_tool_body wq_funcs self name kwargs
  | CallCreateSimulation st regular meta =>
      wq_create_simulation_body wq_funcs self st regular meta
  | CallGetResult location => wq_get_result_body wq_funcs self location
  end.

(** The platform function the call resolves by name. *)
Definition capability (self : MCPClient) (c : WrappedCall) : string :=
  match c with
  | CallRunTool name _ => name
  | CallCreateSimulation _ _ _ => "create_simulation"
  | CallGetResult _ => query_tool self
  end.

(** The keyword arguments the call hands to [_call_tool]. *)
Definition request (c : WrappedCall) : Kwargs :=
  match c with
  | CallRunTool _ kwargs => kwargs
  | CallCreateSimulation st regular meta =>
      [("settings", PDict st); ("regular", PStr regular);
       ("meta", PDict (default [] meta))]
  | CallGetResult location => [("location", PStr location)]
  end.

(** The shape a response must have for the call to return it. *)
Definition accepts (c : WrappedCall) (resp : PyVal) : bool :=
  match c with
  | CallRunTool _ _ => true
  | CallCreateSimulation _ _ _ => is_dict resp && py_in "location" resp
  | CallGetResult _ => is_dict resp
  end.

(** The failure raised for a response of the wrong shape. *)
Definition rejection (self : MCPClient) (c : WrappedCall) : Exn :=
  match c with
  | CallRunTool _ _ => RuntimeError ""
  | CallCreateSimulation _ _ _ =>
      RuntimeError "create_simulation must return dict containing 'location'"
  | CallGetResult _ =>
      RuntimeError ("Query tool " +:+ query_tool self
                      +:+ " returned invalid response")
  end.

(** The failure raised when the capability does not resolve. *)
Definition not_found (self : MCPClient) (c : WrappedCall) : Exn :=
  match c with
  | CallRunTool name _ =>
      AttributeError ("Platform tool '" +:+ name
                        +:+ "' not found in worldquant_platform_functions")
  | CallCreateSimulation _ _ _ =>
      AttributeError "Platform does not implement 'create_simulation'"
  | CallGetResult _ =>
      AttributeError ("Platform does not implement query tool '"
                        +:+ query_tool self +:+ "'")
  end.

(** What one run of the body makes of the platform function's outcome. *)
Definition screened (self : MCPClient) (c : WrappedCall) (o : Outcome PyVal) : Outcome PyVal :=
  match o with
  | Ok resp => if accepts c resp then Ok resp else Raise (rejection self c)
  | Raise e => Raise e
  end.

(** ** Platforms used in the examples *)

(** A demonstration platform: submission fails twice with a transport
    error and then hands out a location. *)
Definition flaky_submission : Tool :=
  mkTool true (fun _ h =>
    if length h <? 2 then Raise (mkExn "ConnectionError" "reset by peer")
    else Ok (PDict [("location", PStr "sim/42")])).

Definition demo_platform : gmap string Attr :=
  {[ "create_simulation" := Callable flaky_submission ]}.

(** The outcome of the platform function on attempt [i + 1] of a wrapped
    call started on trace [w]: the earlier attempts of the same call are
    on record. *)
Definition outcome_at (self : MCPClient) (c : WrappedCall) (tool : Tool)
    (w : Trace) (i : nat) : Outcome PyVal :=
  let kw := with_default_timeout self tool (request c) in
  behave tool kw (calls_of w ++ replicate i (capability self c, kw)).

(** ** Unresolvable capabilities *)

(** The reading under which a not-found failure is never retried. *)
Definition tool_not_found_surfaces_immediately : Prop :=
  forall wq_funcs self c w,
    _has_tool wq_funcs (capability self c) = false ->
    exists w',
      wrapped_call wq_funcs self c w = (Raise (not_found self c), w') /\
      attempts_of w' = attempts_of w ++ [1] /\
      sleeps_of w' = sleeps_of w.

(** A platform whose submission and query functions answer, but never
    with a map. *)
Definition shapeless_platform : gmap string Attr :=
  {[ "create_simulation" := Callable (mkTool false (fun _ _ => Ok (PStr "accepted")));
     "get_submission_check" := Callable (mkTool false (fun _ _ => Ok PNone)) ]}.

(** A limiter that is installed but unreachable. *)
Definition broken_limiter_platform : gmap string Attr :=
  {[ "acquire_rate_limit" :=
       Callable (mkTool false (fun _ _ => Raise (mkExn "TimeoutError" "limiter unreachable"))) ]}.

(** ** The store fallback chain *)

Definition store_put_names : list string :=
  ["store_put"; "save_simulation_data"; "manage_config"].
Definition store_get_names : list string :=
  ["store_get"; "get_platform_setting_options"; "get_user_profile"].

(** The first name of a list that resolves to a platform function. *)
Fixpoint first_resolving (wq_funcs : gmap string Attr) (names : list string)
    : option (string * Tool) :=
  match names with
  | [] => None
  | name :: rest =>
      match wq_funcs !! name with
      | Some (Callable tool) => Some (name, tool)
      | _ => first_resolving wq_funcs rest
      end
  end.

(** The chain as the specification words it: try each name in the declared
    order, stop at the first call that succeeds, and report failure only
    when every name has been tried. *)
Fixpoint store_put_first_success (wq_funcs : gmap string Attr) (self : MCPClient)
    (names : list string) (key : string) (value : Kwargs) : M bool :=
  match names with
  | [] => ret false
  | name :: rest =>
      if _has_tool wq_funcs name then
        try_except
          (resp <- _call_tool wq_funcs self name
                     [("key", PStr key); ("value", PDict value)] ;;
           ret (ok_flag (fun _ => true) resp))
          (fun _ => store_put_first_success wq_funcs self rest key value)
      else store_put_first_success wq_funcs self rest key value
  end.

Definition store_put_stops_at_first_success : Prop :=
  forall wq_funcs self key value w,
    (store_put wq_funcs self key value w).1 =
    (store_put_first_success wq_funcs self store_put_names key value w).1.

(** A platform whose primary store is down while an alternate works. *)
Definition degraded_store_platform : gmap string Attr :=
  {[ "store_put" :=
       Callable (mkTool false (fun _ _ => Raise (mkExn "IOError" "store offline")));
     "save_simulation_data" :=
       Callable (mkTool false (fun _ _ => Ok (PDict [("ok", PBool true)]))) ]}.

(** ** Tables *)

(** [a] may stand before [b]: its key is not below the key of [b]. *)
Definition not_below {R} (lt : R -> R -> bool) (a b : R) : Prop :=
  lt a b = false.

(** Run a store method and keep the database it leaves. *)
Definition after {A} (q : Sql A) (db : DB) : DB := (q db).2.

(** Three entries stored in the order 0.5, 0.9, 0.3. *)
Definition scenario_c_db : DB :=
  after (add_leaderboard 1700000300 "rank(volume)" (PDict []) (3 # 10)%Q "weak")
    (after (add_leaderboard 1700000200 "rank(close)" (PDict []) (9 # 10)%Q "strong")
       (after (add_leaderboard 1700000100 "rank(open)" (PDict []) (1 # 2)%Q "fair")
          empty_db)).

(** The reading under which a returned entry carries the stored comment:
    the comment can be read back from the entry. *)
Definition top_k_entries_carry_comment : Prop :=
  exists comment_of : PyVal -> string,
    forall now e st sc cm entry db',
      top_k 1 (after (add_leaderboard now e st sc cm) empty_db) = (Ok [entry], db') ->
      comment_of entry = cm.

Definition round0_state : PyVal := GraphState_dict (GraphState_new main_goal 5).
Definition round1_state : PyVal :=
  GraphState_dict
    (mkGraphState main_goal 1 5 "turnover too high" None None None None None [] false).

(** ** Round states, node functions and processes *)

Definition stopped_state : GraphState :=
  mkGraphState main_goal 4 5 "" None None None None None [] true.

Definition initial_state : GraphState := GraphState_new main_goal 5.


(** Stand-ins for the node functions, enough to drive the graph: the
    author proposes a fixed candidate, submission goes through
    [wq_create_simulation], and decide counts the round and stops at
    [max_rounds]. *)
Definition demo_candidate : Candidate :=
  mkCandidate "ts_rank(close, 10)" [("delay", PInt 1)] "slow momentum" None None.

Definition with_candidate (c : Candidate) (s : GraphState) : GraphState :=
  mkGraphState (goal s) (round_idx s) (max_rounds s) (feedback s) (Some c)
    (current_result s) (current_score s) (current_comment s) (best s)
    (history s) (stop s).

Definition with_result (r : PyVal) (s : GraphState) : GraphState :=
  mkGraphState (goal s) (round_idx s) (max_rounds s) (feedback s)
    (current_candidate s) (Some r) (current_score s) (current_comment s)
    (best s) (history s) (stop s).

Definition next_round (s : GraphState) : GraphState :=
  mkGraphState (goal s) (round_idx s + 1) (max_rounds s) (feedback s)
    (current_candidate s) (current_result s) (current_score s)
    (current_comment s) (best s) (history s)
    (max_rounds s <=? round_idx s + 1)%Z.

Definition demo_nodes (wq_funcs : gmap string Attr) : Nodes :=
  mkNodes
    retP
    (fun s => retP (with_candidate demo_candidate s))
    retP
    (fun s =>
       bindP (via_client
                (wq_create_simulation wq_funcs MCPClient_default
                   (default [] (settings <$> current_candidate s))
                   (default "" (expr <$> current_candidate s)) None))
             (fun resp => retP (with_result resp s)))
    retP
    retP
    (fun s => retP (next_round s)).

(** Submission is accepted once; from then on the platform refuses. *)
Definition one_shot_platform : gmap string Attr :=
  {[ "create_simulation" :=
       Callable (mkTool false (fun _ h =>
         if length h <? 1 then Ok (PDict [("location", PStr "sim/1")])
         else Raise (mkExn "HTTPError" "503 service unavailable"))) ]}.

Definition fresh_process : Process := mkProcess [] empty_db 1700000000 [] [].

(** A graph with the topology of [build_graph] and, in addition, the
    edge from [START] to [planner]: what [main_with_app] is given in the
    examples of the failure handler. *)
Definition entered_at_planner (nodes : Nodes) : CompiledGraph :=
  mkCompiled nodes (Goto planner).


(** The reading under which the handler stores the state as of just
    before the failing stage. *)
Definition snapshot_holds_state_before_failure : Prop :=
  forall nodes limit p at_node before e p1,
    run_from nodes limit planner initial_state p = (Crashed at_node before e, p1) ->
    io_fault (store p1) = None ->
    exists pf,
      main_with_app (invoke (entered_at_planner nodes) limit) p = (Raise e, pf) /\
      snapshots (store pf) =
        snapshots (store p1)
          ++ [mkSnapshot (clock p1) (round_idx before) (GraphState_dict before)].


Definition second_round_state : GraphState :=
  with_candidate demo_candidate
    (next_round
       (with_result (PDict [("location", PStr "sim/1")])
          (with_candidate demo_candidate initial_state))).

(** ** Further examples *)

(** A module in which [store_get] is a version string, not a function,
    and [get_user_profile] is a function. *)
Definition versioned_platform : gmap string Attr :=
  {[ "store_get" := Plain (PStr "2.1");
     "get_user_profile" :=
       Callable (mkTool false (fun _ _ => Ok (PDict [("user", PStr "quant")]))) ]}.

(** A limiter that answers every request with an empty map. *)
Definition terse_limiter_platform : gmap string Attr :=
  {[ "acquire_rate_limit" := Callable (mkTool false (fun _ _ => Ok (PDict [])));
     "release_rate_limit" := Callable (mkTool false (fun _ _ => Ok PNone)) ]}.

(** What can happen to the store between two observations: a call of one
    of its four methods, or a change in the condition of the connection. *)
Inductive StoreOp : Type :=
| OpSaveSnapshot (now round_idx : Z) (state : PyVal)
| OpLoadLatestSnapshot
| OpAddLeaderboard (now : Z) (expr : string) (settings : PyVal) (score : Q)
    (comment : string)
| OpTopK (k : Z)
| OpCondition (fault : option Exn).

Definition apply_op (db : DB) (op : StoreOp) : DB :=
  match op with
  | OpSaveSnapshot now i state => after (save_snapshot now i state) db
  | OpLoadLatestSnapshot => after load_latest_snapshot db
  | OpAddLeaderboard now e st sc cm => after (add_leaderboard now e st sc cm) db
  | OpTopK k => after (top_k k) db
  | OpCondition fault => mkDB (snapshots db) (leaderboard db) fault
  end.

(** The snapshot and the leaderboard written in the examples. *)
Definition later_db : DB :=
  after (save_snapshot 1700000000 0 round0_state) empty_db.

(** Four snapshots: the second and the third share the highest timestamp,
    the fourth was stamped after the clock was set back. *)
Definition crowded_db : DB :=
  after (save_snapshot 1700000030 3 (PDict [("round_idx", PInt 3)]))
    (after (save_snapshot 1700000060 2 (PDict [("round_idx", PInt 2)]))
       (after (save_snapshot 1700000060 1 round1_state)
          (after (save_snapshot 1700000000 0 round0_state) empty_db))).

(** What a best-effort method may add to the trace: log records and at
    most one platform call, but no attempt marker and no sleep. *)
Definition one_call_at_most (w w' : Trace) : Prop :=
  sleeps_of w' = sleeps_of w /\
  attempts_of w' = attempts_of w /\
  (calls_of w' = calls_of w \/ exists c, calls_of w' = calls_of w ++ [c]).

(** * Verification *)

(** ** Traces *)

Lemma project_cons {X} (pick : Event -> option X) ev w :
  project pick (ev :: w) = project pick w ++ option_list (pick ev).
Proof.
  unfold project. simpl. destruct (pick ev); simpl; [done|].
  by rewrite app_nil_r.
Qed.

Ltac trace_simpl :=
  unfold calls_of, sleeps_of, attempts_of, logs_of in *;
  repeat rewrite !project_cons in *; simpl option_list in *;
  repeat rewrite ?app_nil_r, <- ?app_assoc in *;
  fold calls_of sleeps_of attempts_of logs_of in *.

(** ** The retry loop *)

Lemma retry_loop_eq {A} (fn : M A) n w :
  retry_loop fn n w =
  match fn (EAttempt n :: w) with
  | (Ok v, w') => (Ok v, w')
  | (Raise e, w') =>
      if retry_stop n then (Raise e, w')
      else retry_loop fn (S n) (ESleep (retry_wait n) :: w')
  end.
Proof.
  simp retry_loop.
  destruct (fn (EAttempt n :: w)) as [[v|e] w']; simpl; [done|].
  unfold inspect. by destruct (retry_stop n).
Qed.

Lemma retry_stop_spec n : retry_stop n = bool_decide (RETRY_ATTEMPTS <= n).
Proof.
  unfold retry_stop, stop_after_attempt.
  case_bool_decide; [by apply Nat.leb_le | by apply Nat.leb_gt; lia].
Qed.

(** The waits of the shared policy: 1, 2, 4, 8, 16, then the cap. *)
Lemma retry_wait_closed_form n :
  1 <= n -> retry_wait n = Z.min (2 ^ (Z.of_nat n - 1)) 30.
Proof.
  intros Hn. unfold retry_wait, wait_exponential,
    RETRY_WAIT_MULTIPLIER, RETRY_WAIT_MAX.
  assert (0 < 2 ^ (Z.of_nat n - 1))%Z by (apply Z.pow_pos_nonneg; lia).
  lia.
Qed.

Lemma retry_wait_bounds n : (1 <= retry_wait n <= 30)%Z.
Proof.
  unfold retry_wait, wait_exponential, RETRY_WAIT_MULTIPLIER, RETRY_WAIT_MAX.
  lia.
Qed.

Lemma retry_wait_mono n m : n <= m -> (retry_wait n <= retry_wait m)%Z.
Proof.
  intros Hnm. unfold retry_wait, wait_exponential,
    RETRY_WAIT_MULTIPLIER, RETRY_WAIT_MAX.
  assert (2 ^ (Z.of_nat n - 1) <= 2 ^ (Z.of_nat m - 1))%Z.
  { destruct n as [|n].
    - destruct m as [|m]; [done|].
      simpl (Z.of_nat 0 - 1)%Z. rewrite Z.pow_neg_r by lia.
      apply Z.pow_nonneg. lia.
    - apply Z.pow_le_mono_r; lia. }
  lia.
Qed.

Lemma retry_wait_doubles n :
  1 <= n -> (retry_wait (S n) = Z.min (2 * retry_wait n) 30)%Z.
Proof.
  intros Hn. rewrite !retry_wait_closed_form by lia.
  replace (Z.of_nat (S n) - 1)%Z with (Z.succ (Z.of_nat n - 1)) by lia.
  rewrite Z.pow_succ_r by lia. lia.
Qed.

Section RetryProfile.

Context {A : Type} (fn : M A).
Variable attempt : list (string * Kwargs) -> Outcome A.
Variable cs : list (string * Kwargs).
Hypothesis Hprofile : body_profile fn attempt cs.

Lemma calls_before_S w i : calls_before cs w (S i) = calls_before cs w i ++ cs.
Proof.
  unfold calls_before. rewrite <- app_assoc. f_equal.
  induction i as [|i IH]; simpl; [by rewrite app_nil_r|].
  rewrite <- app_assoc. by rewrite <- IH.
Qed.

(** [k] failed attempts in a row, each followed by its wait. *)
Lemma retry_loop_failures k : forall n w,
  n + k <= RETRY_ATTEMPTS ->
  (forall i, i < k -> exists e, attempt (calls_before cs w i) = Raise e) ->
  exists wk,
    retry_loop fn n w = retry_loop fn (n + k) wk /\
    calls_of wk = calls_before cs w k /\
    sleeps_of wk = sleeps_of w ++ (retry_wait <$> seq n k) /\
    attempts_of wk = attempts_of w ++ seq n k.
Proof.
  induction k as [|k IH]; intros n w Hle Hfail.
  - exists w. rewrite Nat.add_0_r. unfold calls_before. simpl.
    by rewrite !app_nil_r.
  - destruct (IH n w) as (wk & Hrun & Hc & Hs & Ha); [lia|auto with lia|].
    destruct (Hprofile (EAttempt (n + k) :: wk)) as (w' & Hfn & Hc' & Hs' & Ha').
    destruct (Hfail k) as [e He]; [lia|].
    trace_simpl. rewrite Hc in Hfn, Hc'. rewrite He in Hfn.
    exists (ESleep (retry_wait (n + k)) :: w').
    rewrite Hrun, retry_loop_eq, Hfn, retry_stop_spec.
    rewrite bool_decide_eq_false_2 by lia.
    replace (n + S k) with (S (n + k)) by lia.
    split; [done|]. trace_simpl.
    rewrite calls_before_S, Hc', Hs', Ha', Hs, Ha.
    rewrite !seq_S, fmap_app. simpl.
    by rewrite <- !app_assoc.
Qed.

(** The call returns the first success among the first five attempts. *)
Lemma retry_first_success k v w :
  k < RETRY_ATTEMPTS ->
  (forall i, i < k -> exists e, attempt (calls_before cs w i) = Raise e) ->
  attempt (calls_before cs w k) = Ok v ->
  exists w',
    retry fn w = (Ok v, w') /\
    calls_of w' = calls_before cs w (S k) /\
    sleeps_of w' = sleeps_of w ++ (retry_wait <$> seq 1 k) /\
    attempts_of w' = attempts_of w ++ seq 1 (S k).
Proof.
  intros Hk Hfail Hok.
  destruct (retry_loop_failures k 1 w) as (wk & Hrun & Hc & Hs & Ha);
    [lia|done|].
  destruct (Hprofile (EAttempt (1 + k) :: wk)) as (w' & Hfn & Hc' & Hs' & Ha').
  trace_simpl. rewrite Hc in Hfn, Hc'. rewrite Hok in Hfn.
  exists w'. unfold retry. rewrite Hrun, retry_loop_eq, Hfn.
  split; [done|].
  rewrite calls_before_S, Hc', Hs', Ha', Hs, Ha, seq_S.
  by rewrite <- !app_assoc.
Qed.

(** When all five attempts fail, the fifth failure is re-raised. *)
Lemma retry_exhausted e w :
  (forall i, i < 4 -> exists e', attempt (calls_before cs w i) = Raise e') ->
  attempt (calls_before cs w 4) = Raise e ->
  exists w',
    retry fn w = (Raise e, w') /\
    calls_of w' = calls_before cs w 5 /\
    sleeps_of w' = sleeps_of w ++ [1; 2; 4; 8]%Z /\
    attempts_of w' = attempts_of w ++ [1; 2; 3; 4; 5].
Proof.
  intros Hfail Hlast.
  destruct (retry_loop_failures 4 1 w) as (wk & Hrun & Hc & Hs & Ha);
    [unfold RETRY_ATTEMPTS; lia|done|].
  destruct (Hprofile (EAttempt 5 :: wk)) as (w' & Hfn & Hc' & Hs' & Ha').
  trace_simpl. rewrite Hc in Hfn, Hc'. rewrite Hlast in Hfn.
  exists w'. unfold retry. rewrite Hrun. simpl (1 + 4).
  rewrite retry_loop_eq, Hfn.
  split; [done|].
  rewrite calls_before_S, Hc', Hs', Ha', Hs, Ha.
  by rewrite <- !app_assoc.
Qed.

End RetryProfile.

(** ** The three retried methods, uniformly *)

Section Wrapped.

Variable wq_funcs : gmap string Attr.
Variable self : MCPClient.

Lemma wrapped_call_retry c : wrapped_call wq_funcs self c = retry (wrapped_body wq_funcs self c).
Proof. by destruct c. Qed.

Lemma has_tool_resolved name tool :
  wq_funcs !! name = Some (Callable tool) -> _has_tool wq_funcs name = true.
Proof. intros H. unfold _has_tool. by rewrite H. Qed.

Lemma call_tool_resolved name tool kwargs w :
  wq_funcs !! name = Some (Callable tool) ->
  _call_tool wq_funcs self name kwargs w =
  (behave tool (with_default_timeout self tool kwargs) (calls_of w),
   ELog DEBUG "Tool call {} completed in {:.2f}s"
     :: ECall name (with_default_timeout self tool kwargs) :: w).
Proof. intros H. unfold _call_tool. by rewrite H. Qed.

Lemma call_tool_missing name kwargs w :
  _has_tool wq_funcs name = false ->
  _call_tool wq_funcs self name kwargs w =
  (Raise (AttributeError
            ("Platform tool '" +:+ name
               +:+ "' not found in worldquant_platform_functions")), w).
Proof.
  unfold _has_tool, _call_tool.
  by destruct (wq_funcs !! name) as [[]|].
Qed.

(** One run of a body whose capability resolves: exactly one platform
    call, and the screened outcome of that call. *)
Lemma wrapped_body_resolved c tool :
  wq_funcs !! capability self c = Some (Callable tool) ->
  body_profile (wrapped_body wq_funcs self c)
    (fun h => screened self c (behave tool (with_default_timeout self tool (request c)) h))
    [(capability self c, with_default_timeout self tool (request c))].
Proof.
  intros Hres w. pose proof (has_tool_resolved _ _ Hres) as Hhas.
  destruct c as [name kwargs|st regular meta|location]; simpl in *.
  - unfold run_tool_body, bind, logger, emit.
    rewrite (call_tool_resolved _ _ _ _ Hres). trace_simpl.
    eexists. split; [by destruct (behave _ _ _)|].
    by trace_simpl.
  - unfold wq_create_simulation_body, bind, logger, emit, ret, raise.
    rewrite Hhas. change (negb true) with false. cbv beta iota.
    rewrite (call_tool_resolved _ _ _ _ Hres). trace_simpl.
    destruct (behave _ _ _) as [resp|e]; simpl.
    + rewrite <- negb_andb. destruct (is_dict resp && py_in "location" resp);
        simpl; eexists; (split; [done|]); by trace_simpl.
    + eexists; (split; [done|]); by trace_simpl.
  - unfold wq_get_result_body, bind, logger, emit, ret, raise.
    rewrite Hhas. change (negb true) with false. cbv beta iota.
    rewrite (call_tool_resolved _ _ _ _ Hres). trace_simpl.
    destruct (behave _ _ _) as [resp|e]; simpl.
    + destruct (is_dict resp);
        simpl; eexists; (split; [done|]); by trace_simpl.
    + eexists; (split; [done|]); by trace_simpl.
Qed.

(** One run of a body whose capability does not resolve: the not-found
    failure, and no platform call. *)
Lemma wrapped_body_missing c :
  _has_tool wq_funcs (capability self c) = false ->
  body_profile (wrapped_body wq_funcs self c) (fun _ => Raise (not_found self c)) [].
Proof.
  intros Hhas w.
  destruct c as [name kwargs|st regular meta|location]; simpl in *.
  - unfold run_tool_body, bind, logger, emit.
    rewrite call_tool_missing by done.
    eexists; (split; [done|]); by trace_simpl.
  - unfold wq_create_simulation_body, raise. rewrite Hhas. simpl.
    eexists; (split; [done|]); by trace_simpl.
  - unfold wq_get_result_body, raise. rewrite Hhas. simpl.
    eexists; (split; [done|]); by trace_simpl.
Qed.

End Wrapped.

Lemma mjoin_replicate_singleton {X} (x : X) i :
  mjoin (replicate i [x]) = replicate i x.
Proof. induction i as [|i IH]; simpl; [done|by rewrite IH]. Qed.

Lemma mjoin_replicate_nil {X} i : mjoin (replicate i (@nil X)) = [].
Proof. induction i as [|i IH]; simpl; done. Qed.

Lemma retry_waits_prefix k :
  k < RETRY_ATTEMPTS -> retry_wait <$> seq 1 k = take k [1; 2; 4; 8]%Z.
Proof.
  unfold RETRY_ATTEMPTS. intros Hk.
  do 5 (destruct k as [|k]; [reflexivity|]). lia.
Qed.

Section RetriedMethods.

Variable wq_funcs : gmap string Attr.
Variable self : MCPClient.

(** The screened outcomes decide the wrapped call. *)
Lemma wrapped_call_first_success c tool w k v :
  wq_funcs !! capability self c = Some (Callable tool) ->
  k < RETRY_ATTEMPTS ->
  (forall i, i < k -> exists e, screened self c (outcome_at self c tool w i) = Raise e) ->
  screened self c (outcome_at self c tool w k) = Ok v ->
  exists w',
    wrapped_call wq_funcs self c w = (Ok v, w') /\
    length (calls_of w') = length (calls_of w) + S k /\
    sleeps_of w' = sleeps_of w ++ take k [1; 2; 4; 8]%Z /\
    attempts_of w' = attempts_of w ++ seq 1 (S k).
Proof.
  intros Hres Hk Hfail Hok. rewrite wrapped_call_retry.
  destruct (retry_first_success _ _ _ (wrapped_body_resolved _ _ c tool Hres) k v w)
    as (w' & Hrun & Hc & Hs & Ha); [done| | |].
  - intros i Hi. unfold calls_before. rewrite mjoin_replicate_singleton.
    by apply Hfail.
  - unfold calls_before. by rewrite mjoin_replicate_singleton.
  - exists w'. rewrite retry_waits_prefix in Hs by done.
    repeat split; try done.
    rewrite Hc. unfold calls_before.
    rewrite mjoin_replicate_singleton, length_app, length_replicate. lia.
Qed.

Lemma wrapped_call_exhausted c tool w e :
  wq_funcs !! capability self c = Some (Callable tool) ->
  (forall i, i < 4 -> exists e', screened self c (outcome_at self c tool w i) = Raise e') ->
  screened self c (outcome_at self c tool w 4) = Raise e ->
  exists w',
    wrapped_call wq_funcs self c w = (Raise e, w') /\
    length (calls_of w') = length (calls_of w) + 5 /\
    sleeps_of w' = sleeps_of w ++ [1; 2; 4; 8]%Z /\
    attempts_of w' = attempts_of w ++ [1; 2; 3; 4; 5].
Proof.
  intros Hres Hfail Hlast. rewrite wrapped_call_retry.
  destruct (retry_exhausted _ _ _ (wrapped_body_resolved _ _ c tool Hres) e w)
    as (w' & Hrun & Hc & Hs & Ha).
  - intros i Hi. unfold calls_before. rewrite mjoin_replicate_singleton.
    by apply Hfail.
  - unfold calls_before. by rewrite mjoin_replicate_singleton.
  - exists w'. repeat split; try done.
    rewrite Hc. unfold calls_before.
    rewrite mjoin_replicate_singleton, length_app, length_replicate. lia.
Qed.

Lemma wrapped_call_missing c w :
  _has_tool wq_funcs (capability self c) = false ->
  exists w',
    wrapped_call wq_funcs self c w = (Raise (not_found self c), w') /\
    calls_of w' = calls_of w /\
    sleeps_of w' = sleeps_of w ++ [1; 2; 4; 8]%Z /\
    attempts_of w' = attempts_of w ++ [1; 2; 3; 4; 5].
Proof.
  intros Hhas. rewrite wrapped_call_retry.
  destruct (retry_exhausted _ _ _ (wrapped_body_missing _ _ c Hhas)
              (not_found self c) w) as (w' & Hrun & Hc & Hs & Ha);
    [by eauto|done|].
  exists w'. repeat split; try done.
  rewrite Hc. unfold calls_before.
  by rewrite mjoin_replicate_nil, app_nil_r.
Qed.

End RetriedMethods.

(** C1.  For each of the three retried methods ([run_tool],
    [wq_create_simulation], [wq_get_result]) whose platform function
    resolves: if the function raises on each of the five attempts, the call
    makes exactly the attempts 1 to 5, sleeps 1, 2, 4, 8 between them and
    re-raises the failure of the fifth attempt as it is; if the function
    raises on the first [k < 5] attempts and then returns a response [v] of
    the shape the method expects, the call returns exactly [v] after
    [k + 1] attempts, having slept the first [k] of those waits.  The wait
    after attempt [n] is [min (2 ^ (n - 1)) 30]: it starts at 1, doubles,
    never decreases, and never exceeds 30. *)
Theorem retrying_caller_contract wq_funcs self c tool w :
  wq_funcs !! capability self c = Some (Callable tool) ->
  (forall errs : nat -> Exn,
     (forall i, i < 5 -> outcome_at self c tool w i = Raise (errs i)) ->
     exists w',
       wrapped_call wq_funcs self c w = (Raise (errs 4), w') /\
       attempts_of w' = attempts_of w ++ [1; 2; 3; 4; 5] /\
       sleeps_of w' = sleeps_of w ++ [1; 2; 4; 8]%Z) /\
  (forall k (errs : nat -> Exn) v,
     k < 5 ->
     (forall i, i < k -> outcome_at self c tool w i = Raise (errs i)) ->
     outcome_at self c tool w k = Ok v ->
     accepts c v = true ->
     exists w',
       wrapped_call wq_funcs self c w = (Ok v, w') /\
       attempts_of w' = attempts_of w ++ seq 1 (S k) /\
       sleeps_of w' = sleeps_of w ++ take k [1; 2; 4; 8]%Z) /\
  (forall n, 1 <= n ->
     retry_wait n = Z.min (2 ^ (Z.of_nat n - 1)) 30 /\
     retry_wait (S n) = Z.min (2 * retry_wait n) 30 /\
     (retry_wait n <= retry_wait (S n))%Z /\
     (1 <= retry_wait n <= 30)%Z).
Proof.
  intros Hres. split; [|split].
  - intros errs Hfail.
    destruct (wrapped_call_exhausted wq_funcs self c tool w (errs 4) Hres)
      as (w' & Hrun & _ & Hs & Ha).
    + intros i Hi. exists (errs i). by rewrite Hfail by lia.
    + by rewrite Hfail by lia.
    + by exists w'.
  - intros k errs v Hk Hfail Hok Hacc.
    destruct (wrapped_call_first_success wq_funcs self c tool w k v Hres)
      as (w' & Hrun & _ & Hs & Ha); [done| | |].
    + intros i Hi. exists (errs i). by rewrite Hfail by lia.
    + rewrite Hok. simpl. by rewrite Hacc.
    + by exists w'.
  - intros n Hn. split; [by apply retry_wait_closed_form|].
    split; [by apply retry_wait_doubles|].
    split; [apply retry_wait_mono; lia|apply retry_wait_bounds].
Qed.

Lemma retrying_caller_contract_witness :
  exists w',
    wq_create_simulation demo_platform MCPClient_default [] "rank(close)" None [] =
      (Ok (PDict [("location", PStr "sim/42")]), w') /\
    attempts_of w' = [1; 2; 3] /\
    sleeps_of w' = [1; 2]%Z.
Proof.
  destruct (retrying_caller_contract demo_platform MCPClient_default
              (CallCreateSimulation [] "rank(close)" None)
              flaky_submission [] eq_refl) as (_ & Hok & _).
  apply (Hok 2 (fun _ => mkExn "ConnectionError" "reset by peer")
             (PDict [("location", PStr "sim/42")])).
  - lia.
  - intros [|[|i]] Hi; [reflexivity|reflexivity|lia].
  - reflexivity.
  - reflexivity.
Defined.

(** ** Unresolvable capabilities *)

(** On a platform with no functions at all, [run_tool("missing")] goes
    through the whole retry schedule before the failure surfaces. *)
Example run_tool_missing_trace :
  run_tool ∅ MCPClient_default "missing" [] [] =
  (Raise (AttributeError
            "Platform tool 'missing' not found in worldquant_platform_functions"),
   [ELog INFO "Running tool: {} with args keys: {}"; EAttempt 5; ESleep 8;
    ELog INFO "Running tool: {} with args keys: {}"; EAttempt 4; ESleep 4;
    ELog INFO "Running tool: {} with args keys: {}"; EAttempt 3; ESleep 2;
    ELog INFO "Running tool: {} with args keys: {}"; EAttempt 2; ESleep 1;
    ELog INFO "Running tool: {} with args keys: {}"; EAttempt 1]).
Proof. vm_compute. reflexivity. Qed.

(** C3, as stated, fails: the not-found failure is raised inside the retry
    wrapper, which retries every exception. *)
Lemma tool_not_found_is_retried : ~ tool_not_found_surfaces_immediately.
Proof.
  intros Himm.
  destruct (Himm ∅ MCPClient_default (CallRunTool "missing" []) [])
    as (w' & Hrun & Ha & Hs); [by vm_compute|].
  simpl in Hrun. rewrite run_tool_missing_trace in Hrun.
  inversion Hrun; subst w'. vm_compute in Hs. discriminate Hs.
Qed.

(** C3, amended.  For each of the three retried methods whose capability
    does not resolve, every attempt raises the not-found failure without
    executing any platform function (no fallback to another capability);
    the retry wrapper treats it like any other failure, so the call makes
    the attempts 1 to 5, sleeps 1, 2, 4, 8 between them, and then re-raises
    the not-found failure. *)
Theorem tool_not_found_after_retries wq_funcs self c w :
  _has_tool wq_funcs (capability self c) = false ->
  exists w',
    wrapped_call wq_funcs self c w = (Raise (not_found self c), w') /\
    calls_of w' = calls_of w /\
    attempts_of w' = attempts_of w ++ [1; 2; 3; 4; 5] /\
    sleeps_of w' = sleeps_of w ++ [1; 2; 4; 8]%Z.
Proof.
  intros Hhas.
  destruct (wrapped_call_missing wq_funcs self c w Hhas)
    as (w' & Hrun & Hc & Hs & Ha).
  by exists w'.
Qed.

Lemma tool_not_found_after_retries_witness :
  exists w',
    wq_get_result demo_platform MCPClient_default "sim/42" [] =
      (Raise (AttributeError
                "Platform does not implement query tool 'get_submission_check'"),
       w') /\
    calls_of w' = [] /\
    attempts_of w' = [1; 2; 3; 4; 5] /\
    sleeps_of w' = [1; 2; 4; 8]%Z.
Proof.
  apply (tool_not_found_after_retries demo_platform MCPClient_default
           (CallGetResult "sim/42") []).
  reflexivity.
Defined.

(** ** Response validation *)

(** C5.  For [wq_create_simulation] and [wq_get_result] (and vacuously
    for [run_tool], which accepts every response): a response of the wrong
    shape counts as a failed attempt exactly like a raised failure, so it is
    followed by a wait and a further attempt, and when the fifth attempt
    also ends in a response of the wrong shape the call raises the
    [RuntimeError] of the method; a response of the right shape is returned
    as it is.  The right shape is a map containing [location] for
    submission and any map for polling. *)
Theorem malformed_response_is_retried wq_funcs self c tool w :
  wq_funcs !! capability self c = Some (Callable tool) ->
  let failed i :=
    (exists e, outcome_at self c tool w i = Raise e) \/
    (exists resp, outcome_at self c tool w i = Ok resp /\ accepts c resp = false) in
  (forall k v,
     k < 5 ->
     (forall i, i < k -> failed i) ->
     outcome_at self c tool w k = Ok v -> accepts c v = true ->
     exists w',
       wrapped_call wq_funcs self c w = (Ok v, w') /\
       attempts_of w' = attempts_of w ++ seq 1 (S k) /\
       sleeps_of w' = sleeps_of w ++ take k [1; 2; 4; 8]%Z) /\
  (forall resp,
     (forall i, i < 4 -> failed i) ->
     outcome_at self c tool w 4 = Ok resp -> accepts c resp = false ->
     exists w',
       wrapped_call wq_funcs self c w = (Raise (rejection self c), w') /\
       attempts_of w' = attempts_of w ++ [1; 2; 3; 4; 5] /\
       sleeps_of w' = sleeps_of w ++ [1; 2; 4; 8]%Z) /\
  (forall st regular meta resp,
     accepts (CallCreateSimulation st regular meta) resp = true <->
     exists fields, resp = PDict fields /\ dict_has "location" fields = true) /\
  (forall location resp,
     accepts (CallGetResult location) resp = true <->
     exists fields, resp = PDict fields).
Proof.
  intros Hres failed.
  assert (Hscreen : forall i, failed i ->
            exists e, screened self c (outcome_at self c tool w i) = Raise e).
  { intros i [[e He]|(resp & He & Hacc)]; rewrite He; simpl; [by eauto|].
    rewrite Hacc. by eauto. }
  split; [|split; [|split]].
  - intros k v Hk Hfail Hok Hacc.
    destruct (wrapped_call_first_success wq_funcs self c tool w k v Hres)
      as (w' & Hrun & _ & Hs & Ha); [done|by auto| |by exists w'].
    rewrite Hok. simpl. by rewrite Hacc.
  - intros resp Hfail Hlast Hacc.
    destruct (wrapped_call_exhausted wq_funcs self c tool w (rejection self c) Hres)
      as (w' & Hrun & _ & Hs & Ha); [by auto| |by exists w'].
    rewrite Hlast. simpl. by rewrite Hacc.
  - intros st regular meta resp. simpl. split.
    + destruct resp; simpl; try done. intros H. by eauto.
    + by intros (fields & -> & H).
  - intros location resp. simpl. split.
    + destruct resp; simpl; try done. by eauto.
    + by intros (fields & ->).
Qed.

Lemma malformed_response_is_retried_witness :
  exists w',
    wq_create_simulation shapeless_platform MCPClient_default [] "rank(close)" None [] =
      (Raise (RuntimeError "create_simulation must return dict containing 'location'"),
       w') /\
    attempts_of w' = [1; 2; 3; 4; 5] /\
    sleeps_of w' = [1; 2; 4; 8]%Z.
Proof.
  destruct (malformed_response_is_retried shapeless_platform MCPClient_default
              (CallCreateSimulation [] "rank(close)" None)
              (mkTool false (fun _ _ => Ok (PStr "accepted"))) [] eq_refl)
    as (_ & Hbad & _).
  apply (Hbad (PStr "accepted")).
  - intros i _. right. exists (PStr "accepted"). split; reflexivity.
  - reflexivity.
  - reflexivity.
Defined.

(** ** Rate limiting *)

Section RateLimit.

Variable wq_funcs : gmap string Attr.
Variable self : MCPClient.

Lemma rate_limit_acquire_from_total fns name permits w :
  exists granted w',
    rate_limit_acquire_from wq_funcs self fns name permits w = (Ok granted, w').
Proof.
  induction fns as [|fn rest IH]; simpl; [by eauto|].
  destruct (_has_tool wq_funcs fn); [|done].
  unfold try_except, bind, ret, logger, emit.
  destruct (_call_tool_keywords _ _ _ _ _) as [[resp|e] w1]; by eauto.
Qed.

Lemma rate_limit_release_from_total fns name permits w :
  exists w',
    rate_limit_release_from wq_funcs self fns name permits w = (Ok tt, w').
Proof.
  induction fns as [|fn rest IH]; simpl; [by eauto|].
  destruct (_has_tool wq_funcs fn); [|done].
  unfold try_except, bind, ret, logger, emit.
  destruct (_call_tool_keywords _ _ _ _ _) as [[resp|e] w1]; by eauto.
Qed.

End RateLimit.

(** C9.  [rate_limit_acquire] and [rate_limit_release] always return and
    never raise.  When [acquire_rate_limit] does not resolve,
    [rate_limit_acquire] grants the request and its only effect is the
    warning that no limiter was found; when [release_rate_limit] does not
    resolve, [rate_limit_release] calls nothing and leaves only a debug
    record. *)
Theorem rate_limit_is_best_effort wq_funcs self name permits w :
  (exists granted w',
     rate_limit_acquire wq_funcs self name permits w = (Ok granted, w')) /\
  (exists w',
     rate_limit_release wq_funcs self name permits w = (Ok tt, w')) /\
  (_has_tool wq_funcs "acquire_rate_limit" = false ->
     rate_limit_acquire wq_funcs self name permits w =
     (Ok true,
      ELog WARNING "No rate limit acquire tool found; defaulting to True" :: w)) /\
  (_has_tool wq_funcs "release_rate_limit" = false ->
     rate_limit_release wq_funcs self name permits w =
     (Ok tt, ELog DEBUG "No rate limit release tool found; skipping" :: w)).
Proof.
  split; [apply rate_limit_acquire_from_total|].
  split; [apply rate_limit_release_from_total|].
  split; intros Hhas.
  - unfold rate_limit_acquire. simpl. by rewrite Hhas.
  - unfold rate_limit_release. simpl. by rewrite Hhas.
Qed.

Lemma rate_limit_is_best_effort_witness :
  rate_limit_acquire demo_platform MCPClient_default "simulate" 1 [] =
    (Ok true,
     [ELog WARNING "No rate limit acquire tool found; defaulting to True"]) /\
  rate_limit_release demo_platform MCPClient_default "simulate" 1 [] =
    (Ok tt, [ELog DEBUG "No rate limit release tool found; skipping"]).
Proof.
  destruct (rate_limit_is_best_effort demo_platform MCPClient_default
              "simulate" 1 []) as (_ & _ & Hacq & Hrel).
  split; [apply Hacq|apply Hrel]; reflexivity.
Defined.

(** The call the rate-limit methods make never reaches [_call_tool]. *)
Lemma call_tool_keywords_name wq_funcs self fn name permits w :
  _call_tool_keywords wq_funcs self fn
    [("name", PStr name); ("permits", PInt permits)] w =
  (Raise (TypeError
            "MCPClient._call_tool() got multiple values for argument 'name'"), w).
Proof. reflexivity. Qed.

(** C10.  When [acquire_rate_limit] resolves, its invocation raises (the
    call [_call_tool(fn, name=name, permits=permits)] fails with
    [TypeError] on the doubled [name] before the limiter is executed), and
    [rate_limit_acquire] returns [False]: the permit is denied, the
    failure is logged as a warning and does not reach the caller. *)
Theorem rate_limit_acquire_denies_on_failure wq_funcs self name permits w :
  _has_tool wq_funcs "acquire_rate_limit" = true ->
  (exists e,
     _call_tool_keywords wq_funcs self "acquire_rate_limit"
       [("name", PStr name); ("permits", PInt permits)] w = (Raise e, w)) /\
  rate_limit_acquire wq_funcs self name permits w =
  (Ok false, ELog WARNING "rate_limit_acquire('{}') raised {}" :: w).
Proof.
  intros Hhas. split.
  - eexists. apply call_tool_keywords_name.
  - unfold rate_limit_acquire. simpl. rewrite Hhas.
    unfold try_except, bind. by rewrite call_tool_keywords_name.
Qed.

Lemma rate_limit_acquire_denies_on_failure_witness :
  rate_limit_acquire broken_limiter_platform MCPClient_default "simulate" 1 [] =
  (Ok false, [ELog WARNING "rate_limit_acquire('{}') raised {}"]).
Proof.
  apply (rate_limit_acquire_denies_on_failure broken_limiter_platform
           MCPClient_default "simulate" 1 []).
  reflexivity.
Defined.

(** ** The store fallback *)

Example store_put_gives_up_after_primary :
  store_put degraded_store_platform MCPClient_default "best" [] [] =
  (Ok false,
   [ELog ERROR "store_put failed for {}: {}";
    ELog DEBUG "Tool call {} completed in {:.2f}s";
    ECall "store_put" [("key", PStr "best"); ("value", PDict [])]]).
Proof. vm_compute. reflexivity. Qed.

(** C4, as stated, fails: with the primary store raising and a working
    alternate, [store_put] returns [False] without trying the alternate. *)
Lemma store_put_ignores_working_alternate : ~ store_put_stops_at_first_success.
Proof.
  intros Hchain.
  specialize (Hchain degraded_store_platform MCPClient_default "best" [] []).
  rewrite store_put_gives_up_after_primary in Hchain.
  vm_compute in Hchain. discriminate Hchain.
Qed.

Section StoreFallback.

Variable wq_funcs : gmap string Attr.
Variable self : MCPClient.

Lemma store_put_via_resolved name tool failure_log key value w :
  wq_funcs !! name = Some (Callable tool) ->
  let kw := with_default_timeout self tool
              [("key", PStr key); ("value", PDict value)] in
  exists w',
    store_put_via wq_funcs self name failure_log key value w =
      (Ok match behave tool kw (calls_of w) with
          | Ok resp => ok_flag (fun _ => true) resp
          | Raise _ => false
          end, w') /\
    calls_of w' = calls_of w ++ [(name, kw)].
Proof.
  intros Hres kw. unfold store_put_via, try_except, bind.
  rewrite (call_tool_resolved _ _ _ _ _ _ Hres). fold kw.
  destruct (behave tool kw (calls_of w)); simpl;
    eexists; (split; [done|]); by trace_simpl.
Qed.

Lemma store_get_via_resolved name tool failure_log key w :
  wq_funcs !! name = Some (Callable tool) ->
  let kw := with_default_timeout self tool [("key", PStr key)] in
  exists w',
    store_get_via wq_funcs self name failure_log key w =
      (Ok match behave tool kw (calls_of w) with
          | Ok resp => resp
          | Raise _ => PNone
          end, w') /\
    calls_of w' = calls_of w ++ [(name, kw)].
Proof.
  intros Hres kw. unfold store_get_via, try_except.
  rewrite (call_tool_resolved _ _ _ _ _ _ Hres). fold kw.
  destruct (behave tool kw (calls_of w)); simpl;
    eexists; (split; [done|]); by trace_simpl.
Qed.

Lemma has_tool_lookup name :
  _has_tool wq_funcs name =
  match wq_funcs !! name with Some (Callable _) => true | _ => false end.
Proof. done. Qed.

Lemma store_put_alternates_spec alts key value w :
  match first_resolving wq_funcs alts with
  | Some (name, tool) =>
      let kw := with_default_timeout self tool
                  [("key", PStr key); ("value", PDict value)] in
      exists w',
        store_put_alternates wq_funcs self alts key value w =
          (Ok match behave tool kw (calls_of w) with
              | Ok resp => ok_flag (fun _ => true) resp
              | Raise _ => false
              end, w') /\
        calls_of w' = calls_of w ++ [(name, kw)]
  | None =>
      store_put_alternates wq_funcs self alts key value w =
      (Ok false, ELog WARNING "No storage tool found; store_put is a no-op" :: w)
  end.
Proof.
  induction alts as [|alt rest IH]; simpl; [done|].
  rewrite has_tool_lookup.
  destruct (wq_funcs !! alt) as [[tool|v]|] eqn:Hres; try done.
  by apply store_put_via_resolved.
Qed.

Lemma store_get_alternates_spec alts key w :
  match first_resolving wq_funcs alts with
  | Some (name, tool) =>
      let kw := with_default_timeout self tool [("key", PStr key)] in
      exists w',
        store_get_alternates wq_funcs self alts key w =
          (Ok match behave tool kw (calls_of w) with
              | Ok resp => resp
              | Raise _ => PNone
              end, w') /\
        calls_of w' = calls_of w ++ [(name, kw)]
  | None =>
      store_get_alternates wq_funcs self alts key w =
      (Ok PNone, ELog WARNING "No store_get tool found" :: w)
  end.
Proof.
  induction alts as [|alt rest IH]; simpl; [done|].
  rewrite has_tool_lookup.
  destruct (wq_funcs !! alt) as [[tool|v]|] eqn:Hres; try done.
  by apply store_get_via_resolved.
Qed.

End StoreFallback.

(** C4, amended.  [store_put] and [store_get] never raise, and each
    executes at most one platform function: the first name, in the fixed
    order primary then alternates, that resolves.  [store_put] returns the
    truth value of that function's [ok] field ([True] when the response has
    none or is not a map) and [False] when the function raises; [store_get]
    returns that function's response and [None] when it raises.  When no
    name of the chain resolves, [store_put] returns [False] and [store_get]
    returns [None], with no platform call. *)
Theorem store_fallback_by_resolution wq_funcs self key value w :
  match first_resolving wq_funcs store_put_names with
  | Some (name, tool) =>
      let kw := with_default_timeout self tool
                  [("key", PStr key); ("value", PDict value)] in
      exists w',
        store_put wq_funcs self key value w =
          (Ok match behave tool kw (calls_of w) with
              | Ok resp => ok_flag (fun _ => true) resp
              | Raise _ => false
              end, w') /\
        calls_of w' = calls_of w ++ [(name, kw)]
  | None =>
      store_put wq_funcs self key value w =
      (Ok false, ELog WARNING "No storage tool found; store_put is a no-op" :: w)
  end /\
  match first_resolving wq_funcs store_get_names with
  | Some (name, tool) =>
      let kw := with_default_timeout self tool [("key", PStr key)] in
      exists w',
        store_get wq_funcs self key w =
          (Ok match behave tool kw (calls_of w) with
              | Ok resp => resp
              | Raise _ => PNone
              end, w') /\
        calls_of w' = calls_of w ++ [(name, kw)]
  | None =>
      store_get wq_funcs self key w =
      (Ok PNone, ELog WARNING "No store_get tool found" :: w)
  end.
Proof.
  split.
  - unfold store_put, store_put_names.
    cbn [first_resolving]. rewrite has_tool_lookup.
    destruct (wq_funcs !! "store_put") as [[tool|v]|] eqn:Hres.
    + by apply store_put_via_resolved.
    + apply (store_put_alternates_spec wq_funcs self
               ["save_simulation_data"; "manage_config"]).
    + apply (store_put_alternates_spec wq_funcs self
               ["save_simulation_data"; "manage_config"]).
  - unfold store_get, store_get_names.
    cbn [first_resolving]. rewrite has_tool_lookup.
    destruct (wq_funcs !! "store_get") as [[tool|v]|] eqn:Hres.
    + by apply store_get_via_resolved.
    + apply (store_get_alternates_spec wq_funcs self
               ["get_platform_setting_options"; "get_user_profile"]).
    + apply (store_get_alternates_spec wq_funcs self
               ["get_platform_setting_options"; "get_user_profile"]).
Qed.

(** ** [ORDER BY ... DESC] *)

Section OrderByFacts.

Context {R : Type} (lt : R -> R -> bool).
Hypothesis lt_asym : forall a b, lt a b = true -> lt b a = false.
Hypothesis lt_negtrans :
  forall a b c, lt a b = false -> lt b c = false -> lt a c = false.

Lemma insert_desc_perm x l : insert_desc lt x l ≡ₚ x :: l.
Proof.
  induction l as [|y ys IH]; simpl; [done|].
  destruct (lt x y); [|done].
  rewrite IH. apply perm_swap.
Qed.

Lemma order_by_desc_perm l : order_by_desc lt l ≡ₚ l.
Proof.
  induction l as [|x l IH]; simpl; [done|].
  by rewrite insert_desc_perm, IH.
Qed.

Lemma insert_desc_sorted x l :
  StronglySorted (not_below lt) l -> StronglySorted (not_below lt) (insert_desc lt x l).
Proof.
  induction l as [|y ys IH]; simpl; intros Hs.
  - repeat constructor.
  - apply StronglySorted_cons in Hs as [Hy Hys].
    destruct (lt x y) eqn:Hxy.
    + apply StronglySorted_cons. split; [|by apply IH].
      rewrite insert_desc_perm. constructor; [|done].
      by apply lt_asym.
    + apply StronglySorted_cons. split.
      * constructor; [done|].
        eapply Forall_impl; [exact Hy|].
        intros z Hz. by apply (lt_negtrans x y z).
      * by apply StronglySorted_cons.
Qed.

Lemma order_by_desc_sorted l : StronglySorted (not_below lt) (order_by_desc lt l).
Proof.
  induction l as [|x l IH]; simpl; [constructor|].
  by apply insert_desc_sorted.
Qed.

(** Stability: rows that are never below one another keep their order. *)
Lemma insert_desc_stable (tie : R -> bool) x l :
  (forall a b, tie a = true -> tie b = true -> lt a b = false) ->
  List.filter tie (insert_desc lt x l) = List.filter tie (x :: l).
Proof.
  intros Htie. induction l as [|y ys IH]; [done|].
  simpl insert_desc. destruct (lt x y) eqn:Hxy; [|done].
  simpl List.filter in *. rewrite IH.
  destruct (tie x) eqn:Hx, (tie y) eqn:Hy; try done.
  by rewrite Htie in Hxy.
Qed.

Lemma order_by_desc_stable (tie : R -> bool) l :
  (forall a b, tie a = true -> tie b = true -> lt a b = false) ->
  List.filter tie (order_by_desc lt l) = List.filter tie l.
Proof.
  intros Htie. induction l as [|x l IH]; [done|].
  simpl order_by_desc. rewrite insert_desc_stable by done.
  simpl. by rewrite IH.
Qed.

Lemma limit_split k (rows : list R) :
  exists rest,
    limit k rows ++ rest = rows /\
    length (limit k rows) =
      if (k <? 0)%Z then length rows else Z.to_nat k `min` length rows.
Proof.
  unfold limit. destruct (k <? 0)%Z.
  - exists []. by rewrite app_nil_r.
  - exists (drop (Z.to_nat k) rows). split; [apply take_drop|].
    apply length_take.
Qed.

End OrderByFacts.

Lemma score_lt_asym a b : score_lt a b = true -> score_lt b a = false.
Proof.
  unfold score_lt. intros H. apply negb_true_iff in H.
  apply negb_false_iff, Qle_bool_iff.
  destruct (Qlt_le_dec (lb_score a) (lb_score b)) as [Hlt|Hle].
  - by apply Qlt_le_weak.
  - apply Qle_bool_iff in Hle. congruence.
Qed.

Lemma score_lt_negtrans a b c :
  score_lt a b = false -> score_lt b c = false -> score_lt a c = false.
Proof.
  unfold score_lt. rewrite !negb_false_iff, !Qle_bool_iff.
  intros Hba Hcb. by apply (Qle_trans _ (lb_score b)).
Qed.

Lemma ts_lt_asym a b : ts_lt a b = true -> ts_lt b a = false.
Proof. unfold ts_lt. lia. Qed.

Lemma ts_lt_negtrans a b c :
  ts_lt a b = false -> ts_lt b c = false -> ts_lt a c = false.
Proof. unfold ts_lt. lia. Qed.

(** ** The leaderboard *)

Example scenario_c_rows :
  leaderboard scenario_c_db =
  [mkLeader 1700000100 "rank(open)" (PDict []) (1 # 2)%Q "fair";
   mkLeader 1700000200 "rank(close)" (PDict []) (9 # 10)%Q "strong";
   mkLeader 1700000300 "rank(volume)" (PDict []) (3 # 10)%Q "weak"].
Proof. reflexivity. Qed.

(** C8, as stated, fails: two leaderboards that differ only in a comment
    give the same [top_k] answer, so no entry carries the comment. *)
Lemma top_k_drops_comment : ~ top_k_entries_carry_comment.
Proof.
  intros [comment_of Hread].
  pose proof (Hread 1700000100%Z "rank(open)" (PDict []) (1 # 2)%Q "fair"
                _ _ eq_refl) as Hfair.
  pose proof (Hread 1700000100%Z "rank(open)" (PDict []) (1 # 2)%Q "poor"
                _ _ eq_refl) as Hpoor.
  unfold top_k_entry in Hfair, Hpoor. simpl in Hfair, Hpoor.
  rewrite Hfair in Hpoor. discriminate Hpoor.
Qed.

Lemma StronglySorted_weaken {X} (R1 R2 : X -> X -> Prop) l :
  (forall a b, R1 a b -> R2 a b) -> StronglySorted R1 l -> StronglySorted R2 l.
Proof.
  intros Hsub Hs. induction Hs as [|x l Hs IH Hall]; constructor; [done|].
  eapply Forall_impl; [exact Hall|]. auto.
Qed.

Lemma top_k_run db k :
  io_fault db = None ->
  sqlite_integer k = true ->
  top_k k db =
  (Ok (top_k_entry <$> limit k (order_by_desc score_lt (leaderboard db))), db).
Proof.
  intros Hio Hk. unfold top_k, execute_binding. by rewrite Hio, Hk.
Qed.

Lemma top_k_overflow db k :
  io_fault db = None ->
  sqlite_integer k = false ->
  top_k k db =
  (Raise (OverflowError "Python int too large to convert to SQLite INTEGER"), db).
Proof.
  intros Hio Hk. unfold top_k, execute_binding. by rewrite Hio, Hk.
Qed.

(** C8, amended.  On a healthy connection and for [k] in the signed
    64-bit range, [top_k(k)] returns, for the
    [min k n] first rows of the leaderboard sorted by descending score
    (all [n] rows when [k] is negative), the entry with the four fields
    [expr], [settings], [score] and [ts]; the comment is not part of an
    entry.  Sorted means: a permutation of the stored rows, no row before
    one of higher score (so every returned row scores at least as high as
    every row left out), and rows of equal score in storage order.  Over
    the leaderboard scored 0.5, 0.9, 0.3, [top_k(2)] is the 0.9 entry
    followed by the 0.5 entry.  For [k] outside the signed 64-bit range
    the query raises [OverflowError] and returns nothing. *)
Theorem top_k_contract :
  (forall db k,
     io_fault db = None ->
     sqlite_integer k = true ->
     exists chosen rest,
       top_k k db = (Ok (top_k_entry <$> chosen), db) /\
       chosen ++ rest ≡ₚ leaderboard db /\
       length chosen =
         (if (k <? 0)%Z then length (leaderboard db)
          else Z.to_nat k `min` length (leaderboard db)) /\
       StronglySorted (fun a b => (lb_score b <= lb_score a)%Q) (chosen ++ rest) /\
       (forall q,
          List.filter (fun r => Qeq_bool (lb_score r) q) (chosen ++ rest) =
          List.filter (fun r => Qeq_bool (lb_score r) q) (leaderboard db))) /\
  (forall r,
     top_k_entry r =
     PDict [("expr", PStr (lb_expr r)); ("settings", lb_settings_json r);
            ("score", PFloat (lb_score r)); ("ts", PInt (lb_ts r))]) /\
  (forall db k,
     io_fault db = None ->
     sqlite_integer k = false ->
     top_k k db =
     (Raise (OverflowError "Python int too large to convert to SQLite INTEGER"),
      db)) /\
  top_k 2 scenario_c_db =
  (Ok [PDict [("expr", PStr "rank(close)"); ("settings", PDict []);
              ("score", PFloat (9 # 10)%Q); ("ts", PInt 1700000200)];
       PDict [("expr", PStr "rank(open)"); ("settings", PDict []);
              ("score", PFloat (1 # 2)%Q); ("ts", PInt 1700000100)]],
   scenario_c_db).
Proof.
  split; [|split; [done|split; [by apply top_k_overflow|by vm_compute]]].
  intros db k Hio Hk.
  set (sorted := order_by_desc score_lt (leaderboard db)).
  destruct (limit_split k sorted) as (rest & Hsplit & Hlen).
  exists (limit k sorted), rest.
  split; [by apply top_k_run|]. rewrite Hsplit.
  split; [apply order_by_desc_perm|].
  split.
  { rewrite Hlen. unfold sorted.
    by rewrite (Permutation_length (order_by_desc_perm score_lt (leaderboard db))). }
  split.
  - eapply StronglySorted_weaken;
      [|apply (order_by_desc_sorted score_lt score_lt_asym score_lt_negtrans)].
    intros a b Hab. unfold not_below, score_lt in Hab.
    by apply negb_false_iff, Qle_bool_iff in Hab.
  - intros q. apply order_by_desc_stable.
    intros a b Ha Hb. unfold score_lt.
    apply negb_false_iff, Qle_bool_iff.
    apply Qeq_bool_iff in Ha, Hb. rewrite Ha, Hb. apply Qle_refl.
Qed.

Lemma top_k_contract_witness :
  exists chosen rest,
    top_k 2 scenario_c_db = (Ok (top_k_entry <$> chosen), scenario_c_db) /\
    chosen ++ rest ≡ₚ leaderboard scenario_c_db /\
    length chosen = 2 /\
    StronglySorted (fun a b => (lb_score b <= lb_score a)%Q) (chosen ++ rest) /\
    (forall q,
       List.filter (fun r => Qeq_bool (lb_score r) q) (chosen ++ rest) =
       List.filter (fun r => Qeq_bool (lb_score r) q) (leaderboard scenario_c_db)).
Proof.
  destruct top_k_contract as [Hgen _].
  apply (Hgen scenario_c_db 2%Z); reflexivity.
Defined.

(** ** Snapshots *)

Lemma save_snapshot_appends now i state db :
  io_fault db = None ->
  sqlite_integer i = true ->
  save_snapshot now i state db =
  (Ok tt, mkDB (snapshots db ++ [mkSnapshot now i state]) (leaderboard db) None).
Proof.
  intros Hio Hi. unfold save_snapshot, execute_binding. by rewrite Hio, Hi.
Qed.

Lemma save_snapshot_overflow now i state db :
  io_fault db = None ->
  sqlite_integer i = false ->
  save_snapshot now i state db =
  (Raise (OverflowError "Python int too large to convert to SQLite INTEGER"), db).
Proof.
  intros Hio Hi. unfold save_snapshot, execute_binding. by rewrite Hio, Hi.
Qed.

Lemma save_snapshot_keeps_prefix now i state db :
  exists r, snapshots (after (save_snapshot now i state) db) = snapshots db ++ r.
Proof.
  unfold after, save_snapshot, execute_binding.
  destruct (io_fault db); simpl.
  - exists []. by rewrite app_nil_r.
  - destruct (sqlite_integer i); simpl; [by eexists|].
    exists []. by rewrite app_nil_r.
Qed.

Lemma load_latest_snapshot_none db :
  io_fault db = None -> snapshots db = [] ->
  load_latest_snapshot db = (Ok (PDict []), db).
Proof.
  intros Hio Hnone. unfold load_latest_snapshot, execute.
  by rewrite Hio, Hnone.
Qed.

Lemma order_by_desc_newest (rows : list SnapshotRow) r :
  Forall (fun x => (snap_ts x < snap_ts r)%Z) rows ->
  order_by_desc ts_lt (rows ++ [r]) = r :: order_by_desc ts_lt rows.
Proof.
  induction 1 as [|x rows Hx Hrows IH]; simpl; [done|].
  rewrite IH. simpl. unfold ts_lt at 1.
  by rewrite (proj2 (Z.ltb_lt _ _) Hx).
Qed.

(** What does hold: a snapshot stamped later than every stored one is the
    one read back. *)
Lemma load_latest_snapshot_after_later_save now i state db :
  io_fault db = None ->
  sqlite_integer i = true ->
  Forall (fun x => (snap_ts x < now)%Z) (snapshots db) ->
  load_latest_snapshot (after (save_snapshot now i state) db) =
  (Ok state, after (save_snapshot now i state) db).
Proof.
  intros Hio Hi Hlater. unfold after.
  rewrite save_snapshot_appends by done. simpl.
  unfold load_latest_snapshot, execute. simpl.
  by rewrite order_by_desc_newest.
Qed.

(** C7.  The code at the failing inputs: two snapshots written within the
    same clock second (and likewise a second one written after the clock
    was set back) are both kept, in writing order, but
    [load_latest_snapshot] returns the state of the first one, not of the
    one written last. *)
Theorem load_latest_snapshot_returns_earlier_write :
  let same_second :=
    after (save_snapshot 1700000000 1 round1_state)
      (after (save_snapshot 1700000000 0 round0_state) empty_db) in
  let clock_set_back :=
    after (save_snapshot 1699999990 1 round1_state)
      (after (save_snapshot 1700000000 0 round0_state) empty_db) in
  snapshots same_second =
    [mkSnapshot 1700000000 0 round0_state; mkSnapshot 1700000000 1 round1_state] /\
  load_latest_snapshot same_second = (Ok round0_state, same_second) /\
  snapshots clock_set_back =
    [mkSnapshot 1700000000 0 round0_state; mkSnapshot 1699999990 1 round1_state] /\
  load_latest_snapshot clock_set_back = (Ok round0_state, clock_set_back) /\
  round0_state <> round1_state.
Proof. repeat split; try reflexivity. discriminate. Qed.

(** ** The round state machine *)

(** C6.  Once the decide stage has produced a state, the run ends if and
    only if [stop] is set in it; otherwise the next stage is [author], never
    [planner].  No other stage can end the run.  In the executor: a step
    at [decide] that succeeds with [stop] set finishes with that state, and
    one that succeeds with [stop] unset continues at [author]. *)
Theorem decide_stops_or_returns_to_author :
  (forall s, edge decide s = END <-> stop s = true) /\
  (forall s, stop s = false -> edge decide s = Goto author) /\
  (forall s, edge decide s <> Goto planner) /\
  (forall n s, edge n s = END -> n = decide) /\
  (forall nodes steps s p,
     run_from nodes (S steps) decide s p =
     match decide_node nodes s p with
     | (Raise e, p') => (Crashed decide s e, p')
     | (Ok s', p') =>
         if stop s' then (Finished s', p')
         else run_from nodes steps author s' p'
     end).
Proof.
  split; [|split; [|split; [|split]]].
  - intros s. simpl. by destruct (stop s).
  - intros s Hgo. simpl. by rewrite Hgo.
  - intros s. simpl. by destruct (stop s).
  - intros n s. by destruct n.
  - intros nodes steps s p. simpl.
    destruct (decide_node nodes s p) as [[s'|e] p']; [|done].
    by destruct (stop s').
Qed.

Lemma decide_stops_or_returns_to_author_witness :
  edge decide stopped_state = END /\
  edge decide (GraphState_new main_goal 5) = Goto author.
Proof.
  destruct decide_stops_or_returns_to_author as (Hend & Hloop & _).
  split.
  - apply Hend. reflexivity.
  - apply Hloop. reflexivity.
Defined.

(** ** The orchestrator *)






Example second_round_crash :
  (run_from (demo_nodes one_shot_platform) 25 planner initial_state fresh_process).1 =
  Crashed submit second_round_state (mkExn "HTTPError" "503 service unavailable").
Proof. vm_compute. reflexivity. Qed.

Example second_round_snapshot :
  snapshots
    (store (main_with_app
              (invoke (entered_at_planner (demo_nodes one_shot_platform)) 25)
              fresh_process).2) =
  [mkSnapshot 1700000000 0 (GraphState_dict initial_state)].
Proof. vm_compute. reflexivity. Qed.

(** The handler by itself, on a graph that does compile: when submission
    fails in the second round, the state given to the failing stage has
    [round_idx = 1] and a candidate, while the snapshot written is the
    initial state with [round_idx = 0]. *)
Lemma snapshot_holds_initial_state_only : ~ snapshot_holds_state_before_failure.
Proof.
  intros Hclaim.
  pose (r := run_from (demo_nodes one_shot_platform) 25 planner
               initial_state fresh_process).
  destruct (Hclaim (demo_nodes one_shot_platform) 25 fresh_process submit
              second_round_state
              (mkExn "HTTPError" "503 service unavailable") r.2)
    as (pf & Hmain & Hsnap).
  - rewrite <- second_round_crash. fold r. by destruct r.
  - by vm_compute.
  - pose proof second_round_snapshot as Hreal.
    rewrite Hmain in Hreal. simpl in Hreal. rewrite Hreal in Hsnap.
    vm_compute in Hsnap. discriminate Hsnap.
Qed.




(** * Further properties of the gateway *)

(** ** Every retried call, whatever the platform does *)

Lemma first_success_or_all_fail {A} (f : nat -> Outcome A) m :
  (forall i, i < m -> exists e, f i = Raise e) \/
  (exists k v, k < m /\ f k = Ok v /\ forall i, i < k -> exists e, f i = Raise e).
Proof.
  induction m as [|m IH]; [left; intros i Hi; lia|].
  destruct IH as [Hfail|(k & v & Hk & Hok & Hbefore)].
  - destruct (f m) as [v|e] eqn:Hm.
    + right. exists m, v. auto.
    + left. intros i Hi. destruct (Nat.eq_dec i m) as [->|]; [by eauto|].
      apply Hfail. lia.
  - right. exists k, v. auto.
Qed.

Lemma sum_of_waits n : (foldr Z.add 0 (take n [1; 2; 4; 8]) <= 15)%Z.
Proof. do 5 (destruct n as [|n]; [simpl; lia|]). simpl. lia. Qed.

Section RetryOutcome.

Context {A : Type} (fn : M A).
Variable attempt : list (string * Kwargs) -> Outcome A.
Variable cs : list (string * Kwargs).
Hypothesis Hprofile : body_profile fn attempt cs.

(** The loop ends after the first successful attempt, or after the fifth
    attempt, whichever comes first, with the outcome of that attempt. *)
Lemma retry_outcome w :
  exists n w',
    n < 5 /\
    retry fn w = (attempt (calls_before cs w n), w') /\
    (forall i, i < n -> exists e, attempt (calls_before cs w i) = Raise e) /\
    (n < 4 -> exists v, attempt (calls_before cs w n) = Ok v) /\
    calls_of w' = calls_before cs w (S n) /\
    sleeps_of w' = sleeps_of w ++ take n [1; 2; 4; 8]%Z /\
    attempts_of w' = attempts_of w ++ seq 1 (S n).
Proof.
  destruct (first_success_or_all_fail (fun i => attempt (calls_before cs w i)) 5)
    as [Hfail|(k & v & Hk & Hok & Hbefore)].
  - destruct (Hfail 4) as [e He]; [lia|].
    destruct (retry_exhausted fn attempt cs Hprofile e w)
      as (w' & Hrun & Hc & Hs & Ha); [by auto with lia|done|].
    exists 4, w'. rewrite He. repeat split; try done; [lia|by auto with lia|lia].
  - destruct (retry_first_success fn attempt cs Hprofile k v w)
      as (w' & Hrun & Hc & Hs & Ha); [done..|].
    exists k, w'. rewrite Hok, <- retry_waits_prefix by done.
    repeat split; try done. by eauto.
Qed.

End RetryOutcome.

(** X1.  Whatever the platform function does, a retried call on a
    resolving capability ends after [n + 1] attempts with [n < 5]: all
    attempts execute the same function with the same keyword arguments,
    the first [n] fail, the call ends with what the last attempt raised or
    returned, it ends before the fifth attempt only by returning, and it
    has slept the first [n] of the waits 1, 2, 4, 8, at most 15 in all. *)
Theorem wrapped_call_outcome wq_funcs self c tool w :
  wq_funcs !! capability self c = Some (Callable tool) ->
  exists n w',
    n < 5 /\
    wrapped_call wq_funcs self c w =
      (screened self c (outcome_at self c tool w n), w') /\
    (forall i, i < n ->
       exists e, screened self c (outcome_at self c tool w i) = Raise e) /\
    (n < 4 -> exists v, screened self c (outcome_at self c tool w n) = Ok v) /\
    calls_of w' =
      calls_of w ++ replicate (S n)
        (capability self c, with_default_timeout self tool (request c)) /\
    attempts_of w' = attempts_of w ++ seq 1 (S n) /\
    sleeps_of w' = sleeps_of w ++ take n [1; 2; 4; 8]%Z /\
    (foldr Z.add 0 (take n [1; 2; 4; 8]) <= 15)%Z.
Proof.
  intros Hres. rewrite wrapped_call_retry.
  destruct (retry_outcome _ _ _ (wrapped_body_resolved _ _ c tool Hres) w)
    as (n & w' & Hn & Hrun & Hfail & Hearly & Hc & Hs & Ha).
  unfold calls_before in *. rewrite mjoin_replicate_singleton in *.
  exists n, w'. split; [done|]. split; [done|]. split.
  { intros i Hi. destruct (Hfail i Hi) as [e He].
    rewrite mjoin_replicate_singleton in He. by eauto. }
  repeat split; try done. apply sum_of_waits.
Qed.

Lemma wrapped_call_outcome_witness :
  exists n w',
    n < 5 /\
    wq_create_simulation demo_platform MCPClient_default [] "rank(close)" None [] =
      (screened MCPClient_default (CallCreateSimulation [] "rank(close)" None)
         (outcome_at MCPClient_default (CallCreateSimulation [] "rank(close)" None)
            flaky_submission [] n), w') /\
    attempts_of w' = seq 1 (S n).
Proof.
  destruct (wrapped_call_outcome demo_platform MCPClient_default
              (CallCreateSimulation [] "rank(close)" None) flaky_submission []
              eq_refl)
    as (n & w' & Hn & Hrun & _ & _ & _ & Ha & _).
  exists n, w'. split; [exact Hn|]. split; [exact Hrun|exact Ha].
Defined.

(** ** The default timeout *)

Lemma dict_has_app key d1 d2 :
  dict_has key (d1 ++ d2) = dict_has key d1 || dict_has key d2.
Proof.
  induction d1 as [|[k v] d1 IH]; simpl; [done|].
  by destruct (String.eqb k key).
Qed.

Lemma dict_get_app_l key default d1 d2 :
  dict_has key d1 = true ->
  dict_get key default (d1 ++ d2) = dict_get key default d1.
Proof.
  induction d1 as [|[k v] d1 IH]; simpl; [done|].
  by destruct (String.eqb k key).
Qed.

Lemma dict_get_app_r key default d1 d2 :
  dict_has key d1 = false ->
  dict_get key default (d1 ++ d2) = dict_get key default d2.
Proof.
  induction d1 as [|[k v] d1 IH]; simpl; [done|].
  by destruct (String.eqb k key).
Qed.

(** X2.  The keyword arguments a platform function is executed with: a
    timeout given by the caller is never replaced, a function without a
    [timeout] parameter never gets one added, and a function with one
    that is called without it gets the configured default; in every case
    the caller's arguments are passed on unchanged and in order, and a
    second pass of the injection changes nothing. *)
Theorem default_timeout_injection self tool kwargs :
  let sent := with_default_timeout self tool kwargs in
  (dict_has "timeout" kwargs = true -> sent = kwargs) /\
  (accepts_timeout tool = false -> sent = kwargs) /\
  (accepts_timeout tool = true -> dict_has "timeout" kwargs = false ->
     dict_get "timeout" PNone sent = PInt (default_timeout self)) /\
  (forall key default,
     dict_has key kwargs = true ->
     dict_get key default sent = dict_get key default kwargs) /\
  kwargs `prefix_of` sent /\
  dict_has "timeout" sent = accepts_timeout tool || dict_has "timeout" kwargs /\
  with_default_timeout self tool sent = sent.
Proof.
  unfold with_default_timeout.
  destruct (accepts_timeout tool) eqn:Hacc,
           (dict_has "timeout" kwargs) eqn:Hhas; simpl;
    rewrite ?Hacc, ?Hhas; simpl.
  - by repeat split.
  - split; [done|]. split; [done|].
    split; [intros _ _; by rewrite dict_get_app_r|].
    split; [intros key default Hkey; by rewrite dict_get_app_l|].
    split; [by eexists|].
    rewrite !dict_has_app, Hhas. by simpl.
  - by repeat split.
  - by repeat split.
Qed.

Lemma default_timeout_injection_witness :
  with_default_timeout MCPClient_default flaky_submission
    [("location", PStr "sim/42"); ("timeout", PInt 5)] =
    [("location", PStr "sim/42"); ("timeout", PInt 5)] /\
  dict_get "timeout" PNone
    (with_default_timeout MCPClient_default flaky_submission
       [("location", PStr "sim/42")]) = PInt 30.
Proof.
  split.
  - destruct (default_timeout_injection MCPClient_default flaky_submission
                [("location", PStr "sim/42"); ("timeout", PInt 5)])
      as (Hkept & _).
    apply Hkept. reflexivity.
  - destruct (default_timeout_injection MCPClient_default flaky_submission
                [("location", PStr "sim/42")])
      as (_ & _ & Hadded & _).
    apply Hadded; reflexivity.
Defined.

(** ** Attributes that are not callable *)

Section PlainAttribute.

Variable wq_funcs : gmap string Attr.
Variable self : MCPClient.
Variable plain : string.
Variable value : PyVal.
Hypothesis Hplain : wq_funcs !! plain = Some (Plain value).

Lemma has_tool_plain name :
  _has_tool (delete plain wq_funcs) name = _has_tool wq_funcs name.
Proof.
  unfold _has_tool. destruct (String.eq_dec name plain) as [->|Hne].
  - by rewrite lookup_delete_eq, Hplain.
  - by rewrite lookup_delete_ne.
Qed.

Lemma call_tool_plain name kwargs :
  _call_tool (delete plain wq_funcs) self name kwargs =
  _call_tool wq_funcs self name kwargs.
Proof.
  unfold _call_tool. destruct (String.eq_dec name plain) as [->|Hne].
  - by rewrite lookup_delete_eq, Hplain.
  - by rewrite lookup_delete_ne.
Qed.

Lemma call_tool_keywords_plain name keywords :
  _call_tool_keywords (delete plain wq_funcs) self name keywords =
  _call_tool_keywords wq_funcs self name keywords.
Proof. unfold _call_tool_keywords. by rewrite call_tool_plain. Qed.

Lemma rate_limit_acquire_from_plain fns name permits :
  rate_limit_acquire_from (delete plain wq_funcs) self fns name permits =
  rate_limit_acquire_from wq_funcs self fns name permits.
Proof.
  induction fns as [|fn rest IH]; cbn [rate_limit_acquire_from]; [done|].
  by rewrite has_tool_plain, call_tool_keywords_plain, IH.
Qed.

Lemma rate_limit_release_from_plain fns name permits :
  rate_limit_release_from (delete plain wq_funcs) self fns name permits =
  rate_limit_release_from wq_funcs self fns name permits.
Proof.
  induction fns as [|fn rest IH]; cbn [rate_limit_release_from]; [done|].
  by rewrite has_tool_plain, call_tool_keywords_plain, IH.
Qed.

Lemma store_put_alternates_plain alts key val :
  store_put_alternates (delete plain wq_funcs) self alts key val =
  store_put_alternates wq_funcs self alts key val.
Proof.
  induction alts as [|alt rest IH]; simpl; [done|].
  unfold store_put_via. by rewrite has_tool_plain, call_tool_plain, IH.
Qed.

Lemma store_get_alternates_plain alts key :
  store_get_alternates (delete plain wq_funcs) self alts key =
  store_get_alternates wq_funcs self alts key.
Proof.
  induction alts as [|alt rest IH]; simpl; [done|].
  unfold store_get_via. by rewrite has_tool_plain, call_tool_plain, IH.
Qed.

End PlainAttribute.

(** X3.  A module attribute that exists but is not callable counts as
    missing everywhere: every method of the client behaves on the module
    exactly as on the module without that attribute. *)
Theorem plain_attribute_is_missing wq_funcs self plain value :
  wq_funcs !! plain = Some (Plain value) ->
  let without := delete plain wq_funcs in
  (forall name kwargs,
     run_tool without self name kwargs = run_tool wq_funcs self name kwargs) /\
  (forall st regular meta,
     wq_create_simulation without self st regular meta =
     wq_create_simulation wq_funcs self st regular meta) /\
  (forall location,
     wq_get_result without self location = wq_get_result wq_funcs self location) /\
  (forall name permits,
     rate_limit_acquire without self name permits =
     rate_limit_acquire wq_funcs self name permits) /\
  (forall name permits,
     rate_limit_release without self name permits =
     rate_limit_release wq_funcs self name permits) /\
  (forall key val,
     store_put without self key val = store_put wq_funcs self key val) /\
  (forall key, store_get without self key = store_get wq_funcs self key).
Proof.
  intros Hplain without. unfold without.
  split; [|split; [|split; [|split; [|split; [|split]]]]].
  - intros name kwargs. unfold run_tool, run_tool_body.
    by rewrite (call_tool_plain _ _ _ _ Hplain).
  - intros st regular meta.
    unfold wq_create_simulation, wq_create_simulation_body.
    by rewrite (has_tool_plain _ _ _ Hplain), (call_tool_plain _ _ _ _ Hplain).
  - intros location. unfold wq_get_result, wq_get_result_body.
    by rewrite (has_tool_plain _ _ _ Hplain), (call_tool_plain _ _ _ _ Hplain).
  - intros name permits.
    by apply (rate_limit_acquire_from_plain _ _ _ _ Hplain).
  - intros name permits.
    by apply (rate_limit_release_from_plain _ _ _ _ Hplain).
  - intros key val. unfold store_put, store_put_via.
    rewrite (has_tool_plain _ _ _ Hplain), (call_tool_plain _ _ _ _ Hplain).
    by rewrite (store_put_alternates_plain _ _ _ _ Hplain).
  - intros key. unfold store_get, store_get_via.
    rewrite (has_tool_plain _ _ _ Hplain), (call_tool_plain _ _ _ _ Hplain).
    by rewrite (store_get_alternates_plain _ _ _ _ Hplain).
Qed.

Lemma plain_attribute_is_missing_witness :
  store_get (delete "store_get" versioned_platform) MCPClient_default "best" =
  store_get versioned_platform MCPClient_default "best".
Proof.
  destruct (plain_attribute_is_missing versioned_platform MCPClient_default
              "store_get" (PStr "2.1") eq_refl) as (_ & _ & _ & _ & _ & _ & Hget).
  apply Hget.
Defined.

(** ** A limiter that resolves *)

(** X4.  [rate_limit_acquire] and [rate_limit_release] never execute a
    platform function: their call [_call_tool(fn, name=name,
    permits=permits)] passes [name] twice and raises [TypeError], which
    the method catches.  So [rate_limit_acquire] returns [True] exactly
    when no [acquire_rate_limit] function is installed and [False]
    whenever one is, whatever that function would answer;
    [rate_limit_release] returns normally in both cases; and each call
    leaves exactly one log record. *)
Theorem rate_limit_never_reaches_limiter wq_funcs self name permits w :
  rate_limit_acquire wq_funcs self name permits w =
    (Ok (negb (_has_tool wq_funcs "acquire_rate_limit")),
     (if _has_tool wq_funcs "acquire_rate_limit"
      then ELog WARNING "rate_limit_acquire('{}') raised {}"
      else ELog WARNING "No rate limit acquire tool found; defaulting to True")
       :: w) /\
  rate_limit_release wq_funcs self name permits w =
    (Ok tt,
     (if _has_tool wq_funcs "release_rate_limit"
      then ELog WARNING "rate_limit_release('{}') raised {}"
      else ELog DEBUG "No rate limit release tool found; skipping")
       :: w) /\
  calls_of (rate_limit_acquire wq_funcs self name permits w).2 = calls_of w /\
  calls_of (rate_limit_release wq_funcs self name permits w).2 = calls_of w.
Proof.
  assert (Hacq : rate_limit_acquire wq_funcs self name permits w =
    (Ok (negb (_has_tool wq_funcs "acquire_rate_limit")),
     (if _has_tool wq_funcs "acquire_rate_limit"
      then ELog WARNING "rate_limit_acquire('{}') raised {}"
      else ELog WARNING "No rate limit acquire tool found; defaulting to True")
       :: w)).
  { unfold rate_limit_acquire. cbn [rate_limit_acquire_from].
    destruct (_has_tool wq_funcs "acquire_rate_limit"); [|done].
    unfold try_except, bind. by rewrite call_tool_keywords_name. }
  assert (Hrel : rate_limit_release wq_funcs self name permits w =
    (Ok tt,
     (if _has_tool wq_funcs "release_rate_limit"
      then ELog WARNING "rate_limit_release('{}') raised {}"
      else ELog DEBUG "No rate limit release tool found; skipping")
       :: w)).
  { unfold rate_limit_release. cbn [rate_limit_release_from].
    destruct (_has_tool wq_funcs "release_rate_limit"); [|done].
    unfold try_except, bind. by rewrite call_tool_keywords_name. }
  rewrite Hacq, Hrel. repeat split.
  - destruct (_has_tool wq_funcs "acquire_rate_limit"); by trace_simpl.
  - destruct (_has_tool wq_funcs "release_rate_limit"); by trace_simpl.
Qed.

(** A limiter that would grant every request is never asked. *)
Example terse_limiter_is_never_asked :
  rate_limit_acquire terse_limiter_platform MCPClient_default "simulate" 1 [] =
  (Ok false, [ELog WARNING "rate_limit_acquire('{}') raised {}"]).
Proof. reflexivity. Qed.

(** * Further properties of the store *)

(** ** The first row of a sorted table *)

Section OrderByHead.

Context {R : Type} (lt : R -> R -> bool).
Hypothesis lt_asym : forall a b, lt a b = true -> lt b a = false.
Hypothesis lt_negtrans :
  forall a b c, lt a b = false -> lt b c = false -> lt a c = false.

Lemma order_by_desc_nil rows : order_by_desc lt rows = [] -> rows = [].
Proof.
  intros Hnil. apply Permutation_nil_r.
  rewrite <- Hnil. symmetry. apply order_by_desc_perm.
Qed.

(** The first row of the sorted table is the first stored row among those
    with the highest key. *)
Lemma order_by_desc_first rows : forall r rest,
  order_by_desc lt rows = r :: rest ->
  exists pre post,
    rows = pre ++ r :: post /\
    Forall (fun x => lt x r = true) pre /\
    Forall (fun x => lt r x = false) post.
Proof.
  induction rows as [|x l IH]; intros r rest Hsorted; [done|].
  simpl in Hsorted. destruct (order_by_desc lt l) as [|r' rest'] eqn:Hl.
  - apply order_by_desc_nil in Hl as ->. simpl in Hsorted.
    injection Hsorted as <- <-. by exists [], [].
  - destruct (IH r' rest' eq_refl) as (pre & post & -> & Hpre & Hpost).
    simpl in Hsorted. destruct (lt x r') eqn:Hx.
    + injection Hsorted as <- _. exists (x :: pre), post.
      split; [done|]. split; [by constructor|done].
    + injection Hsorted as <- _. exists [], (pre ++ r' :: post).
      split; [done|]. split; [constructor|].
      apply Forall_app. split.
      * eapply Forall_impl; [exact Hpre|]. intros y Hy.
        apply (lt_negtrans x r' y); [done|by apply lt_asym].
      * constructor; [done|].
        eapply Forall_impl; [exact Hpost|]. intros y Hy.
        by apply (lt_negtrans x r' y).
Qed.

(** A row appended to the table comes first exactly when its key is above
    every stored key; otherwise the first row stays what it was. *)
Lemma order_by_desc_head_snoc rows r :
  head (order_by_desc lt (rows ++ [r])) =
  if forallb (fun x => lt x r) rows then Some r
  else head (order_by_desc lt rows).
Proof.
  unfold order_by_desc. rewrite foldr_app. simpl.
  induction rows as [|x l IH]; [done|].
  simpl. fold (order_by_desc lt l) in *.
  destruct (foldr (insert_desc lt) [r] l) as [|h t] eqn:Hh.
  { exfalso. revert Hh. clear. induction l as [|y l IHl]; simpl; [done|].
    destruct (foldr (insert_desc lt) [r] l) as [|h t]; [done|].
    simpl. by destruct (lt y h). }
  simpl in IH. destruct (forallb (fun x => lt x r) l) eqn:Hall.
  - injection IH as ->. simpl. destruct (lt x r) eqn:Hx; [done|]. simpl.
    destruct (order_by_desc lt l) as [|y rest] eqn:Hl; [done|].
    simpl. assert (Hy : lt y r = true).
    { apply (proj1 (forallb_forall _ _) Hall). apply list_elem_of_In.
      rewrite <- (order_by_desc_perm lt l), Hl. by left. }
    by rewrite (lt_negtrans x r y Hx (lt_asym _ _ Hy)).
  - rewrite andb_false_r.
    destruct (order_by_desc lt l) as [|y rest] eqn:Hl.
    { apply order_by_desc_nil in Hl as ->. done. }
    simpl in IH. injection IH as ->. simpl. by destruct (lt x y).
Qed.

End OrderByHead.

Lemma take_prefix_le {X} (l : list X) n m : n <= m -> take n l `prefix_of` take m l.
Proof.
  revert n m. induction l as [|x l IH]; intros n m Hnm.
  - by rewrite !take_nil.
  - destruct n as [|n]; [by eexists|].
    destruct m as [|m]; [lia|]. simpl.
    apply prefix_cons, IH. lia.
Qed.

(** ** Both tables only grow *)

Lemma apply_op_grows db op :
  snapshots db `prefix_of` snapshots (apply_op db op) /\
  leaderboard db `prefix_of` leaderboard (apply_op db op).
Proof.
  destruct op as [now i state| |now e st sc cm|k|fault];
    unfold apply_op, after, save_snapshot, load_latest_snapshot,
      add_leaderboard, top_k, execute, execute_binding; simpl;
    destruct (io_fault db); simpl; try done.
  - destruct (sqlite_integer i); simpl; [|done]. split; [by eexists|done].
  - by destruct (limit 1 _).
  - split; [done|by eexists].
  - by destruct (sqlite_integer k).
Qed.

(** X5.  Whatever sequence of store calls is made, and whether the
    connection fails in between or not, the rows a table held before the
    sequence are still its first rows afterwards, unchanged and in the
    same order: no method removes, rewrites or reorders a stored row. *)
Theorem store_tables_only_grow ops db :
  snapshots db `prefix_of` snapshots (foldl apply_op db ops) /\
  leaderboard db `prefix_of` leaderboard (foldl apply_op db ops).
Proof.
  revert db. induction ops as [|op ops IH]; intros db; simpl; [done|].
  destruct (apply_op_grows db op) as [Hs Hl].
  destruct (IH (apply_op db op)) as [Hs' Hl'].
  split; by etrans.
Qed.

(** ** Which snapshot is read back *)

Lemma load_latest_snapshot_run db :
  io_fault db = None ->
  load_latest_snapshot db =
  (Ok (default (PDict [])
         (snap_state_json <$> head (order_by_desc ts_lt (snapshots db)))), db).
Proof.
  intros Hio. unfold load_latest_snapshot, execute, limit. rewrite Hio. simpl.
  by destruct (order_by_desc ts_lt (snapshots db)).
Qed.

(** X6.  On a healthy connection with at least one snapshot,
    [load_latest_snapshot] returns the state of the first stored row among
    those with the highest timestamp: every row stored before it has a
    strictly lower timestamp, no row stored after it has a higher one, and
    the database is left as it was. *)
Theorem load_latest_snapshot_picks_first_maximum db :
  io_fault db = None ->
  snapshots db <> [] ->
  exists pre row post,
    snapshots db = pre ++ row :: post /\
    load_latest_snapshot db = (Ok (snap_state_json row), db) /\
    Forall (fun x => (snap_ts x < snap_ts row)%Z) pre /\
    Forall (fun x => (snap_ts x <= snap_ts row)%Z) post.
Proof.
  intros Hio Hsome. rewrite load_latest_snapshot_run by done.
  destruct (order_by_desc ts_lt (snapshots db)) as [|row rest] eqn:Hsorted.
  { by apply order_by_desc_nil in Hsorted. }
  destruct (order_by_desc_first ts_lt ts_lt_asym ts_lt_negtrans _ _ _ Hsorted)
    as (pre & post & Hrows & Hpre & Hpost).
  exists pre, row, post. split; [done|]. split; [done|]. split.
  - eapply Forall_impl; [exact Hpre|]. unfold ts_lt. intros x Hx. lia.
  - eapply Forall_impl; [exact Hpost|]. unfold ts_lt. intros x Hx. lia.
Qed.

(** Among four snapshots the second is read back: it is the first of the
    two that share the highest timestamp, and the one written last has a
    lower one. *)
Example crowded_db_selection :
  snapshots crowded_db =
    [mkSnapshot 1700000000 0 round0_state]
      ++ mkSnapshot 1700000060 1 round1_state
      :: [mkSnapshot 1700000060 2 (PDict [("round_idx", PInt 2)]);
          mkSnapshot 1700000030 3 (PDict [("round_idx", PInt 3)])] /\
  load_latest_snapshot crowded_db = (Ok round1_state, crowded_db).
Proof. split; reflexivity. Qed.

Lemma load_latest_snapshot_picks_first_maximum_witness :
  exists pre row post,
    snapshots crowded_db = pre ++ row :: post /\
    load_latest_snapshot crowded_db = (Ok (snap_state_json row), crowded_db) /\
    Forall (fun x => (snap_ts x < snap_ts row)%Z) pre /\
    Forall (fun x => (snap_ts x <= snap_ts row)%Z) post.
Proof.
  apply (load_latest_snapshot_picks_first_maximum crowded_db).
  - reflexivity.
  - discriminate.
Defined.

(** X7.  Saving a snapshot on a healthy connection and reading the latest
    one back.  With a round index in the signed 64-bit range the saved
    state is returned exactly when its timestamp is above every stored
    timestamp, and otherwise the answer is what [load_latest_snapshot]
    gave before the save.  With a round index outside that range the save
    raises [OverflowError] and stores nothing. *)
Theorem snapshot_save_then_load now i state db :
  io_fault db = None ->
  (sqlite_integer i = true ->
   (load_latest_snapshot (after (save_snapshot now i state) db)).1 =
   if forallb (fun x => (snap_ts x <? now)%Z) (snapshots db)
   then Ok state
   else (load_latest_snapshot db).1) /\
  (sqlite_integer i = false ->
   save_snapshot now i state db =
   (Raise (OverflowError "Python int too large to convert to SQLite INTEGER"), db)).
Proof.
  intros Hio. split; intros Hi; [|by apply save_snapshot_overflow].
  unfold after. rewrite save_snapshot_appends by done. simpl.
  rewrite !load_latest_snapshot_run by done. simpl.
  rewrite (order_by_desc_head_snoc ts_lt ts_lt_asym ts_lt_negtrans).
  unfold ts_lt at 1. simpl.
  by destruct (forallb _ (snapshots db)).
Qed.

Lemma snapshot_save_then_load_witness :
  (load_latest_snapshot
     (after (save_snapshot 1700000060 1 round1_state) later_db)).1 =
  Ok round1_state.
Proof.
  destruct (snapshot_save_then_load 1700000060 1 round1_state later_db eq_refl)
    as [Hsaved _].
  apply Hsaved. reflexivity.
Defined.

(** ** Reading the leaderboard *)

(** X8.  On a healthy connection there is one arrangement of all stored
    entries, a permutation of the leaderboard, of which every [top_k(k)]
    with [k] in the signed 64-bit range returns the first [k] entries,
    and all of them when [k] is negative; the database is left as it was.
    So the answers for [0 <= k <= k'] are nested, [top_k(0)] is empty, and
    from [k] equal to the number of stored entries on the answer is the
    whole leaderboard.  For [k] outside the range [top_k] raises
    [OverflowError]. *)
Theorem top_k_answers_are_nested db :
  io_fault db = None ->
  exists full,
    full ≡ₚ leaderboard db /\
    (forall k,
       sqlite_integer k = true ->
       top_k k db =
       (Ok (top_k_entry <$> (if (k <? 0)%Z then full else take (Z.to_nat k) full)),
        db)) /\
    (forall k k',
       (0 <= k <= k')%Z ->
       take (Z.to_nat k) full `prefix_of` take (Z.to_nat k') full) /\
    take 0 full = [] /\
    (forall k,
       (Z.of_nat (length (leaderboard db)) <= k)%Z ->
       take (Z.to_nat k) full = full) /\
    (forall k,
       sqlite_integer k = false ->
       top_k k db =
       (Raise (OverflowError "Python int too large to convert to SQLite INTEGER"),
        db)).
Proof.
  intros Hio. exists (order_by_desc score_lt (leaderboard db)).
  split; [apply order_by_desc_perm|].
  split; [intros k Hk; by apply top_k_run|].
  split; [intros k k' Hk; apply take_prefix_le; lia|].
  split; [done|].
  split; [|intros k Hk; by apply top_k_overflow].
  intros k Hk. apply take_ge.
  rewrite (Permutation_length (order_by_desc_perm score_lt (leaderboard db))).
  lia.
Qed.

Lemma top_k_answers_are_nested_witness :
  exists full,
    full ≡ₚ leaderboard scenario_c_db /\
    top_k 3 scenario_c_db = (Ok (top_k_entry <$> full), scenario_c_db) /\
    top_k (-1) scenario_c_db = (Ok (top_k_entry <$> full), scenario_c_db) /\
    top_k 0 scenario_c_db = (Ok [], scenario_c_db).
Proof.
  destruct (top_k_answers_are_nested scenario_c_db eq_refl)
    as (full & Hperm & Hrun & _ & _ & Hall & _).
  exists full. split; [exact Hperm|].
  split; [|split].
  - rewrite (Hrun 3%Z eq_refl). simpl (3 <? 0)%Z. cbv iota.
    rewrite (Hall 3%Z); [reflexivity|]. simpl. lia.
  - apply (Hrun (-1)%Z eq_refl).
  - rewrite (Hrun 0%Z eq_refl). reflexivity.
Defined.

(** X9.  Adding an entry on a healthy connection and asking for the best
    one: the new entry is the answer exactly when its score is strictly
    above every stored score; an entry that only equals the best stored
    score does not displace it, and the answer stays what it was. *)
Theorem add_leaderboard_then_top_1 now e st sc cm db :
  io_fault db = None ->
  (top_k 1 (after (add_leaderboard now e st sc cm) db)).1 =
  if forallb (fun r => negb (Qle_bool sc (lb_score r))) (leaderboard db)
  then Ok [top_k_entry (mkLeader now e st sc cm)]
  else (top_k 1 db).1.
Proof.
  intros Hio. unfold after, add_leaderboard, execute. rewrite Hio. simpl.
  rewrite !top_k_run by done. simpl. unfold limit. simpl.
  pose proof (order_by_desc_head_snoc score_lt score_lt_asym score_lt_negtrans
                (leaderboard db) (mkLeader now e st sc cm)) as Hhead.
  unfold score_lt at 2 in Hhead. simpl in Hhead.
  destruct (order_by_desc score_lt (leaderboard db ++ _)) as [|h t];
    destruct (forallb _ (leaderboard db));
    destruct (order_by_desc score_lt (leaderboard db)) as [|h' t'];
    simpl in *; try done; by simplify_eq.
Qed.

Lemma add_leaderboard_then_top_1_witness :
  (top_k 1 (after (add_leaderboard 1700000400 "rank(high)" (PDict []) (9 # 10)%Q "tie")
              scenario_c_db)).1 =
  (top_k 1 scenario_c_db).1.
Proof.
  apply (add_leaderboard_then_top_1 1700000400 "rank(high)" (PDict []) (9 # 10)%Q
           "tie" scenario_c_db).
  reflexivity.
Defined.

(** * Further properties of the round state machine and the orchestrator *)

(** The fixed edges recorded by [build_graph] are the ones [edge]
    follows, and the conditional edge is the one it follows at [decide]. *)
Lemma declared_graph_edges :
  sg_nodes declared_graph =
    [planner; author; risk; submit; poll; analyze; decide] /\
  (forall n s, n <> decide -> (From n, edge n s) ∈ sg_edges declared_graph) /\
  (forall src dst, (src, dst) ∈ sg_edges declared_graph -> src <> START) /\
  (exists path,
     sg_branches declared_graph = [(decide, path)] /\
     forall s, path s = edge decide s).
Proof.
  split; [reflexivity|]. split; [|split].
  - intros n s Hn. destruct n; try done; cbv [declared_graph add_edge
      add_node add_conditional_edges sg_edges edge]; simpl; set_solver.
  - intros src dst Hin. cbv [declared_graph add_edge add_node
      add_conditional_edges sg_edges] in Hin. simpl in Hin.
    repeat (apply elem_of_cons in Hin as [Hin|Hin]; [by simplify_eq|]).
    by apply elem_of_nil in Hin.
  - eexists. split; [reflexivity|done].
Qed.


(** * The best-effort methods are not retried *)

Section BestEffort.

Variable wq_funcs : gmap string Attr.
Variable self : MCPClient.

Lemma one_call_at_most_refl w : one_call_at_most w w.
Proof. repeat split. by left. Qed.

Lemma one_call_at_most_log lvl template w w' :
  one_call_at_most w w' -> one_call_at_most w (ELog lvl template :: w').
Proof. intros (Hs & Ha & Hc). repeat split; by trace_simpl. Qed.

Lemma call_tool_one_call name kwargs w :
  one_call_at_most w (_call_tool wq_funcs self name kwargs w).2.
Proof.
  unfold _call_tool. destruct (wq_funcs !! name) as [[tool|v]|]; simpl;
    try apply one_call_at_most_refl.
  repeat split; trace_simpl; try done. right. by eexists.
Qed.

Lemma guarded_call_one_call {A} name kwargs (k : PyVal -> A) lvl template fallback w :
  one_call_at_most w
    (try_except (resp <- _call_tool wq_funcs self name kwargs ;; ret (k resp))
       (fun _ => logger lvl template ;;; ret fallback) w).2.
Proof.
  pose proof (call_tool_one_call name kwargs w) as Hcall.
  unfold try_except, bind, ret, logger, emit.
  destruct (_call_tool wq_funcs self name kwargs w) as [[resp|e] w1]; simpl in *;
    [done|by apply one_call_at_most_log].
Qed.

Lemma rate_limit_acquire_from_one_call fns name permits w :
  one_call_at_most w (rate_limit_acquire_from wq_funcs self fns name permits w).2.
Proof.
  induction fns as [|fn rest IH]; cbn [rate_limit_acquire_from].
  - apply one_call_at_most_log, one_call_at_most_refl.
  - destruct (_has_tool wq_funcs fn); [|done].
    unfold try_except, bind. rewrite call_tool_keywords_name.
    apply one_call_at_most_log, one_call_at_most_refl.
Qed.

Lemma rate_limit_release_from_one_call fns name permits w :
  one_call_at_most w (rate_limit_release_from wq_funcs self fns name permits w).2.
Proof.
  induction fns as [|fn rest IH]; cbn [rate_limit_release_from].
  - apply one_call_at_most_log, one_call_at_most_refl.
  - destruct (_has_tool wq_funcs fn); [|done].
    unfold try_except, bind. rewrite call_tool_keywords_name.
    apply one_call_at_most_log, one_call_at_most_refl.
Qed.

Lemma store_put_alternates_one_call alts key value w :
  one_call_at_most w (store_put_alternates wq_funcs self alts key value w).2.
Proof.
  induction alts as [|alt rest IH]; simpl.
  - apply one_call_at_most_log, one_call_at_most_refl.
  - destruct (_has_tool wq_funcs alt); [|done].
    apply guarded_call_one_call.
Qed.

Lemma store_get_via_one_call tool failure_log key w :
  one_call_at_most w (store_get_via wq_funcs self tool failure_log key w).2.
Proof.
  pose proof (call_tool_one_call tool [("key", PStr key)] w) as Hcall.
  unfold store_get_via, try_except, bind, ret, logger, emit.
  destruct (_call_tool _ _ _ _ _) as [[resp|e] w1]; simpl in *;
    [done|by apply one_call_at_most_log].
Qed.

Lemma store_get_alternates_one_call alts key w :
  one_call_at_most w (store_get_alternates wq_funcs self alts key w).2.
Proof.
  induction alts as [|alt rest IH]; simpl.
  - apply one_call_at_most_log, one_call_at_most_refl.
  - destruct (_has_tool wq_funcs alt); [|done].
    apply store_get_via_one_call.
Qed.

End BestEffort.

(** X12.  The rate-limit and store methods are outside the retry
    wrapper: whatever the platform does, one call of any of the four
    starts no retry attempt, never sleeps, and executes at most one
    platform function. *)
Theorem best_effort_methods_are_not_retried wq_funcs self w :
  (forall name permits,
     one_call_at_most w (rate_limit_acquire wq_funcs self name permits w).2) /\
  (forall name permits,
     one_call_at_most w (rate_limit_release wq_funcs self name permits w).2) /\
  (forall key value,
     one_call_at_most w (store_put wq_funcs self key value w).2) /\
  (forall key, one_call_at_most w (store_get wq_funcs self key w).2).
Proof.
  split; [|split; [|split]].
  - intros name permits. apply rate_limit_acquire_from_one_call.
  - intros name permits. apply rate_limit_release_from_one_call.
  - intros key value. unfold store_put.
    destruct (_has_tool wq_funcs "store_put").
    + apply guarded_call_one_call.
    + apply store_put_alternates_one_call.
  - intros key. unfold store_get.
    destruct (_has_tool wq_funcs "store_get").
    + apply store_get_via_one_call.
    + apply store_get_alternates_one_call.
Qed.

(** * The placeholder oracle *)

Lemma prefix_app needle post : String.prefix needle (needle +:+ post) = true.
Proof.
  induction needle as [|a needle IH]; simpl; [by destruct post|].
  destruct (Ascii.ascii_dec a a); [done|congruence].
Qed.

Lemma contains_app needle pre post :
  contains needle (pre +:+ needle +:+ post) = true.
Proof.
  induction pre as [|a pre IH].
  - change ("" +:+ needle +:+ post) with (needle +:+ post).
    pose proof (prefix_app needle post) as Hpre.
    destruct (needle +:+ post); cbn [contains]; by rewrite Hpre.
  - change (String a pre +:+ needle +:+ post)
      with (String a (pre +:+ needle +:+ post)).
    cbn [contains]. rewrite IH. apply orb_true_r.
Qed.

(** X13.  [DummyLLM.generate] tests its markers in a fixed order: a
    prompt in which [EXPR:] occurs anywhere gets the author reply, whatever
    else it contains; a prompt without any of the four markers gets the
    empty string; and no reply ever contains [CONTINUE: N], so the
    placeholder oracle never asks for the loop to stop. *)
Theorem generate_dispatch :
  (forall pre post, generate (pre +:+ "EXPR:" +:+ post) = author_reply) /\
  (forall prompt,
     contains "EXPR:" prompt = false ->
     contains "return updated settings" prompt = false ->
     contains "输出：给出修改后的 settings" prompt = false ->
     contains "SCORE:" prompt = false ->
     generate prompt = "") /\
  (forall prompt, contains "CONTINUE: N" (generate prompt) = false) /\
  (forall prompt,
     contains "CONTINUE: Y" (generate prompt) = true <->
     generate prompt = analyst_reply).
Proof.
  split; [|split; [|split]].
  - intros pre post. unfold generate. by rewrite contains_app.
  - intros prompt H1 H2 H3 H4. unfold generate. by rewrite H1, H2, H3, H4.
  - intros prompt. unfold generate.
    destruct (contains "EXPR:" prompt); [by vm_compute|].
    destruct (_ || _); [by vm_compute|].
    destruct (contains "SCORE:" prompt); by vm_compute.
  - intros prompt. unfold generate.
    destruct (contains "EXPR:" prompt); [by vm_compute|].
    destruct (_ || _); [by vm_compute|].
    destruct (contains "SCORE:" prompt); by vm_compute.
Qed.

Lemma generate_dispatch_witness : generate "ping" = "".
Proof.
  destruct generate_dispatch as (_ & Hnone & _).
  apply Hnone; reflexivity.
Defined.
